(** * WireViz: the Graphviz rendering engine ([wireviz/wv_graphviz.py])

    A shallow embedding of the functions of [wv_graphviz.py] that build the
    HTML-like tables of connectors and cables, compute the port-qualified
    endpoints of loop edges, parse arrow markers and patch the serialized
    document, together with the properties the design document states
    about them.

    Python values are embedded as follows.
    - [str] is [string].  Rocq strings are byte strings; the code only
      compares and concatenates, and the characters it tests for are ASCII,
      which in UTF-8 never occur inside another character.
    - [int] is [Z]; [f"{n}"] is [str_int n].
    - [None], and values that may be a text, a number or [None], are [Atom].
    - A [dict] is an association list in insertion order.
    - A raised exception is the [Raise] case of [result]. *)

From Stdlib Require Import ZArith List String Ascii Bool Lia DecimalString.
From Stdlib Require Decimal DecimalPos DecimalZ.
Import ListNotations.
Open Scope string_scope.
Open Scope Z_scope.

Set Implicit Arguments.

(** ** Python preliminaries *)

Module Py.

Inductive exn : Type :=
| IndexError
| TypeError
| AttributeError
| Exception (msg : string).

Inductive result (A : Type) : Type :=
| Ok (a : A)
| Raise (e : exn).
Arguments Ok {A} a.
Arguments Raise {A} e.

Definition bind {A B} (c : result A) (k : A -> result B) : result B :=
  match c with
  | Ok a => k a
  | Raise e => Raise e
  end.

Definition raises {A} (c : result A) : bool :=
  match c with Ok _ => false | Raise _ => true end.

(** [None], [str] and [int] values. *)
Inductive Atom : Type :=
| ANone
| AStr (s : string)
| AInt (z : Z).

(** [a == b] on atoms: a text never equals a number. *)
Definition atom_eqb (a b : Atom) : bool :=
  match a, b with
  | ANone, ANone => true
  | AStr s, AStr t => String.eqb s t
  | AInt x, AInt y => Z.eqb x y
  | _, _ => false
  end.

Definition is_none (a : Atom) : bool :=
  match a with ANone => true | _ => false end.

(** [f"{n}"] for an [int]. *)
Definition str_int (z : Z) : string := NilZero.string_of_int (Z.to_int z).

(** [str(a)] / [f"{a}"]. *)
Definition str_atom (a : Atom) : string :=
  match a with
  | ANone => "None"
  | AStr s => s
  | AInt z => str_int z
  end.

(** [len(s)] *)
Definition len (s : string) : Z := Z.of_nat (String.length s).

(** [s[i]], negative indices counting from the end. *)
Definition getitem (s : string) (i : Z) : result ascii :=
  let j := if i <? 0 then i + len s else i in
  if (j <? 0) || (len s <=? j) then Raise IndexError
  else match String.get (Z.to_nat j) s with
       | Some c => Ok c
       | None => Raise IndexError
       end.

(** [c in s] for a one-character [c]. *)
Fixpoint contains (c : ascii) (s : string) : bool :=
  match s with
  | EmptyString => false
  | String d rest => Ascii.eqb c d || contains c rest
  end.

(** [s.replace(c, by)] for a one-character [c]. *)
Fixpoint replace (c : ascii) (by_ : string) (s : string) : string :=
  match s with
  | EmptyString => EmptyString
  | String d rest =>
      (if Ascii.eqb c d then by_ else String d EmptyString) ++ replace c by_ rest
  end.

(** [sep.join(parts)] *)
Definition join (sep : string) (parts : list string) : string :=
  String.concat sep parts.

(** The double quote character, as a one-character text. *)
Definition dquote_char : ascii := ascii_of_nat 34.
Definition dquote : string := String dquote_char EmptyString.

End Py.
Import Py.

Declare Scope py_scope.
Delimit Scope py_scope with py.
Notation "x <- c ;; k" := (bind c (fun x => k))
  (at level 61, c at next level, right associativity) : py_scope.
Notation "c ;;; k" := (bind c (fun _ => k))
  (at level 61, right associativity) : py_scope.
Open Scope py_scope.

(** ** Arrow markers *)

Inductive ArrowDirection : Type := NONE | BACK | FORWARD | BOTH.

Definition lt_sign : ascii := "<"%char.
Definition gt_sign : ascii := ">"%char.

(** [parse_arrow_str], lines 408-416.  [and] evaluates its right operand
    only when the left one holds. *)
Definition parse_arrow_str (inp : string) : result ArrowDirection :=
  first <- getitem inp 0 ;;
  both <- (if Ascii.eqb first lt_sign
           then last <- getitem inp (-1) ;; Ok (Ascii.eqb last gt_sign)
           else Ok false) ;;
  if both then Ok BOTH
  else
    first <- getitem inp 0 ;;
    if Ascii.eqb first lt_sign then Ok BACK
    else
      last <- getitem inp (-1) ;;
      if Ascii.eqb last gt_sign then Ok FORWARD else Ok NONE.

(** ** The markup tree *)

Module Html.

(** Keyword attributes of a tag: an ordered dictionary. *)
Definition Attribs : Type := list (string * Atom).

Inductive TagKind : Type := KTable | KTr | KTd | KImg.

Definition kind_eqb (a b : TagKind) : bool :=
  match a, b with
  | KTable, KTable | KTr, KTr | KTd, KTd | KImg, KImg => true
  | _, _ => false
  end.

(** Modelled from the spec: the classes [Table], [Tr], [Td] and [Img] of
    [wireviz.wv_html] are not part of the sources at hand.  Following the
    design document ("Table (rows, attributes), Tr (cells), Td (content:
    text | Table | none, attributes)") and the way the code calls them,
    a tag stores the contents it is given, its keyword attributes, and the
    two flags [flat] and [delete_if_empty]. *)
Record TagOf (N : Type) : Type := mkTag {
  kind : TagKind;
  contents : N;
  attribs : Attribs;
  flat : bool;
  delete_if_empty : bool
}.

(** A value that can be the contents of a tag or a logical row: an atom,
    a tag, or a Python list of such values. *)
#[warnings="-register-all"] Inductive Node : Type :=
| Leaf (a : Atom)
| Elem (t : TagOf Node)
| Items (l : list Node).

Definition Tag : Type := TagOf Node.

Definition None_ : Node := Leaf ANone.
Definition Text (s : string) : Node := Leaf (AStr s).

Definition Table (contents : Node) (attribs : Attribs) : Tag :=
  mkTag KTable contents attribs false false.
Definition Tr (contents : Node) : Tag :=
  mkTag KTr contents [] false false.
Definition Td (contents : Node) (attribs : Attribs) : Tag :=
  mkTag KTd contents attribs false false.
Definition Img (attribs : Attribs) : Tag :=
  mkTag KImg None_ attribs false false.

Definition set_flat (b : bool) (t : Tag) : Tag :=
  mkTag (kind t) (contents t) (attribs t) b (delete_if_empty t).
Definition set_delete_if_empty (b : bool) (t : Tag) : Tag :=
  mkTag (kind t) (contents t) (attribs t) (flat t) b.
Definition set_contents (c : Node) (t : Tag) : Tag :=
  mkTag (kind t) c (attribs t) (flat t) (delete_if_empty t).

(** [d[k] = v] *)
Fixpoint attr_set (k : string) (v : Atom) (d : Attribs) : Attribs :=
  match d with
  | [] => [(k, v)]
  | (k', v') :: rest =>
      if String.eqb k k' then (k, v) :: rest else (k', v') :: attr_set k v rest
  end.

(** [d.get(k, default)] *)
Fixpoint attr_get (k : string) (default : Atom) (d : Attribs) : Atom :=
  match d with
  | [] => default
  | (k', v) :: rest => if String.eqb k k' then v else attr_get k default rest
  end.

(** Modelled from the spec: [update_attribs] of the absent tag class
    assigns each of its keyword arguments in the attribute dictionary. *)
Definition update_attribs (kwargs : Attribs) (t : Tag) : Tag :=
  mkTag (kind t) (contents t)
        (fold_left (fun d kv => attr_set (fst kv) (snd kv) d) kwargs (attribs t))
        (flat t) (delete_if_empty t).

(** [x is not None] *)
Definition is_not_none (x : Node) : bool :=
  match x with Leaf ANone => false | _ => true end.

End Html.
Import Html.

(** ** The harness data model

    The dataclasses of [wireviz.wv_dataclasses] and [wireviz.wv_colors] are
    not part of the sources at hand; each record lists the attributes that
    [wv_graphviz.py] reads, under the names it reads them by.  Properties
    ([html], [html_padded_list], [gauge_str_with_equiv], [length_str]) are
    fields holding the property's value. *)

(** Modelled from the spec: a single color of the absent module
    [wireviz.wv_colors], of which the code reads the property [html]. *)
Record SingleColor : Type := { html : string }.

(** Modelled from the spec: a color of the absent class [MultiColor], with
    its sub-colors [colors] and the value of its property
    [html_padded_list], the list that [gv_wire_cell] puts between the two
    black bands. *)
Record MultiColor : Type := {
  colors : list SingleColor;
  html_padded_list : list string
}.

(** Modelled from the spec: the truth value of an optional color of the
    absent class [MultiColor].  [None] is false, and so is a color without
    sub-colors, whose length ([len(color)], line 466) is zero. *)
Definition has_color (c : option MultiColor) : bool :=
  match c with
  | None => false
  | Some m => negb (Nat.eqb (List.length (colors m)) 0)
  end.

(** Modelled from the spec: an object of the absent class
    [PartNumberInfo], kept as its attributes; the code only hands it to
    [partnumbers_to_list]. *)
Inductive PartNumberInfo : Type :=
| mkPartNumberInfo (fields : list (string * Atom)).

(** Modelled from the spec: a pin of a connector (class [PinClass]). *)
Module Pin.
Record t : Type := {
  index : Z;
  id : Atom;
  label : Atom;
  color : option MultiColor;
  parent : string
}.
End Pin.

(** Modelled from the spec: a wire or a shield of a cable (classes
    [WireClass] and [ShieldClass]). *)
Module Wire.
Record t : Type := {
  index : Z;
  id : Atom;
  label : option string;
  color : option MultiColor;
  bom_id : Atom;
  parent : string;
  is_shield : bool        (* [isinstance(wire, ShieldClass)] *)
}.
End Wire.

(** Modelled from the spec: a connection of a cable, from a pin, via a
    wire, to a pin. *)
Module Connection.
Record t : Type := {
  from_ : option Pin.t;
  via : Wire.t;
  to : option Pin.t
}.
End Connection.

(** Modelled from the spec: the image of a component. *)
Module Image.
Record t : Type := {
  src : Atom;
  scale : Atom;
  width : Atom;
  height : Atom;
  fixedsize : bool;
  caption : Atom;
  bgcolor : SingleColor
}.
End Image.

(** Modelled from the spec: a sub-item of a component. *)
Module AdditionalComponent.
Record t : Type := {
  bom_id : Atom;
  bom_qty : Atom;
  unit : Atom;            (* [subitem.qty.unit] *)
  description : Atom
}.
End AdditionalComponent.

(** Modelled from the spec: a connector; [loops] is the list of pairs of
    pin numbers. *)
Module Connector.
Record t : Type := {
  designator : string;
  show_name : bool;
  bgcolor_title : SingleColor;
  bgcolor : option SingleColor;
  partnumbers : PartNumberInfo;
  bom_id : Atom;
  type : Atom;
  subtype : Atom;
  pincount : Z;
  show_pincount : bool;
  color : option MultiColor;
  image : option Image.t;
  additional_components : list AdditionalComponent.t;
  notes : Atom;
  style : Atom;
  ports_left : bool;
  ports_right : bool;
  pin_objects : list (Atom * Pin.t);
  loops : list (Z * Z)
}.

(** [connector.ports_left = v] *)
Definition set_ports_left (v : bool) (c : t) : t :=
  {| designator := designator c; show_name := show_name c;
     bgcolor_title := bgcolor_title c; bgcolor := bgcolor c;
     partnumbers := partnumbers c; bom_id := bom_id c; type := type c;
     subtype := subtype c; pincount := pincount c;
     show_pincount := show_pincount c; color := color c; image := image c;
     additional_components := additional_components c; notes := notes c;
     style := style c; ports_left := v; ports_right := ports_right c;
     pin_objects := pin_objects c; loops := loops c |}.
End Connector.

(** Modelled from the spec: a cable. *)
Module Cable.
Record t : Type := {
  designator : string;
  show_name : bool;
  bgcolor_title : SingleColor;
  bgcolor : option SingleColor;
  partnumbers : PartNumberInfo;
  bom_id : Atom;
  type : Atom;
  category : Atom;
  wirecount : Z;
  show_wirecount : bool;
  gauge_str_with_equiv : Atom;
  shield : bool;
  length_str : Atom;
  color : option MultiColor;
  image : option Image.t;
  additional_components : list AdditionalComponent.t;
  notes : Atom;
  wire_objects : list (Atom * Wire.t);
  show_wirenumbers : bool;
  _connections : list Connection.t
}.
End Cable.

(** Modelled from the spec: a component is a connector or a cable. *)
Inductive Component : Type :=
| IsConnector (c : Connector.t)
| IsCable (c : Cable.t).

(** The attributes the code reads of a component of either kind. *)
Module Comp.
Definition show_name (x : Component) : bool :=
  match x with IsConnector c => Connector.show_name c | IsCable c => Cable.show_name c end.
Definition designator (x : Component) : string :=
  match x with IsConnector c => Connector.designator c | IsCable c => Cable.designator c end.
Definition bgcolor_title (x : Component) : SingleColor :=
  match x with IsConnector c => Connector.bgcolor_title c | IsCable c => Cable.bgcolor_title c end.
Definition partnumbers (x : Component) : PartNumberInfo :=
  match x with IsConnector c => Connector.partnumbers c | IsCable c => Cable.partnumbers c end.
Definition image (x : Component) : option Image.t :=
  match x with IsConnector c => Connector.image c | IsCable c => Cable.image c end.
Definition additional_components (x : Component) : list AdditionalComponent.t :=
  match x with
  | IsConnector c => Connector.additional_components c
  | IsCable c => Cable.additional_components c
  end.
Definition notes (x : Component) : Atom :=
  match x with IsConnector c => Connector.notes c | IsCable c => Cable.notes c end.
End Comp.

(** Truth value of an atom: [None], the empty text and [0] are false. *)
Definition truthy (a : Atom) : bool :=
  match a with
  | ANone => false
  | AStr s => negb (String.eqb s EmptyString)
  | AInt z => negb (Z.eqb z 0)
  end.

(** Functions and methods of modules that are not part of the sources at
    hand, taken as parameters of the rendering functions. *)
Record Externals : Type := {
  remove_links : string -> string;                 (* wv_utils.remove_links *)
  html_line_breaks : Atom -> Atom;                 (* wv_utils.html_line_breaks *)
  partnumbers_to_list : PartNumberInfo -> Node;    (* wv_bom.partnumbers_to_list *)
  should_show_pin : Connector.t -> Atom -> bool;   (* Connector.should_show_pin *)
  str_color : MultiColor -> string;                (* MultiColor.__str__ *)
  str_pin : Pin.t -> string                        (* PinClass.__str__ *)
}.

(** ** Table builder and cell helpers *)

(** Keyword arguments [name=number] and [name="text"]. *)
Definition kw_int (name : string) (z : Z) : string * Atom := (name, AInt z).
Definition kw_str (name : string) (s : string) : string * Atom := (name, AStr s).

Definition black : string := "#000000".

(** [bom_bubble], lines 142-164. *)
Definition bom_bubble (id : Atom) : Node :=
  if is_none id then None_
  else
    let text := id in
    Elem (Table
            (Elem (Tr (Elem (Td (Leaf text)
                                [kw_int "border" 1; kw_int "cellpadding" 0;
                                 kw_str "fixedsize" "true"; kw_str "style" "rounded";
                                 kw_int "height" 20; kw_int "width" 20]))))
            [kw_int "border" 0]).

(** [item if isinstance(item, Td) else Td(item)] *)
Definition as_td (item : Node) : Tag :=
  match item with
  | Elem t => if kind_eqb (kind t) KTd then t else Td item []
  | _ => Td item []
  end.

(** [make_list_of_cells], lines 167-179. *)
Definition make_list_of_cells (inp : Node) : list Tag :=
  match inp with
  | Items l => map as_td l
  | Leaf ANone => []
  | _ => [as_td inp]
  end.

(** ["!" in v], for [v] the value of an attribute: only a text can be
    searched. *)
Definition bang_in (v : Atom) : result bool :=
  match v with
  | AStr s => Ok (contains "!"%char s)
  | _ => Raise TypeError
  end.

(** [isinstance(c, Table)] and no ["!"] in the [id] attribute of [c], which
    defaults to the empty text. *)
Definition is_unmarked_table (c : Node) : result bool :=
  match c with
  | Elem t =>
      if kind_eqb (kind t) KTable
      then marked <- bang_in (attr_get "id" (AStr EmptyString) (attribs t)) ;;
           Ok (negb marked)
      else Ok false
  | _ => Ok false
  end.

(** The keyword arguments of the table that wraps the cells of a row. *)
Definition wrap_attribs : Attribs :=
  [kw_int "border" 0; kw_int "cellborder" 1; kw_int "cellpadding" 3;
   kw_int "cellspacing" 0].

(** The loop of [nested_table], lines 186-206, with [rows] the list built
    so far. *)
Fixpoint nested_table_rows (cell_lists : list (list Tag)) (rows : list Node)
  : result (list Node) :=
  match cell_lists with
  | [] => Ok rows
  | lst :: rest =>
      if Nat.eqb (List.length lst) 0 then nested_table_rows rest rows
      else
        let cells := filter (fun item => is_not_none (contents item)) lst in
        if Nat.eqb (List.length cells) 0 then nested_table_rows rest rows
        else
          direct <- match cells with
                    | [c] => is_unmarked_table (contents c)
                    | _ => Ok false
                    end ;;
          let inner_table :=
            match direct, cells with
            | true, c :: _ => contents c
            | _, _ => Elem (Table (Elem (Tr (Items (map Elem cells)))) wrap_attribs)
            end in
          nested_table_rows rest (rows ++ [Elem (Tr (Elem (Td inner_table [])))])%list
  end.

(** [nested_table], lines 182-211. *)
Definition nested_table (lines : list Node) : result Tag :=
  let cell_lists := map make_list_of_cells lines in
  rows <- nested_table_rows cell_lists [] ;;
  let rows :=
    if Nat.eqb (List.length rows) 0
    then Elem (Tr (Elem (Td (Text EmptyString) [])))
    else Items rows in
  Ok (Table rows [kw_int "border" 0; kw_int "cellspacing" 0; kw_int "cellpadding" 0]).

(** [colored_cell], lines 448-449. *)
Definition colored_cell (contents : Node) (bgcolor : SingleColor) : Tag :=
  Td contents [kw_str "bgcolor" (html bgcolor)].

(** [colorbar_cell], lines 452-462. *)
Definition colorbar_cell (color : MultiColor) : Tag :=
  let cells :=
    map (fun subcolor =>
           Elem (Td (Text EmptyString)
                    [kw_str "bgcolor" (html subcolor); kw_int "width" 8]))
        (colors color) in
  Td (Elem (Table (Elem (Tr (Items cells)))
                  [kw_int "border" 0; kw_int "cellspacing" 0]))
     [kw_int "cellspacing" 0; kw_int "cellpadding" 0].

(** [color_minitable], lines 465-486. *)
Definition color_minitable (color : option MultiColor) : Node :=
  match color with
  | None => Text EmptyString
  | Some m =>
      if Nat.eqb (List.length (colors m)) 0 then Text EmptyString
      else
        let cells :=
          map (fun subcolor =>
                 Elem (Td (Text EmptyString)
                          [kw_str "bgcolor" (html subcolor); kw_int "height" 8;
                           kw_int "width" 8; kw_str "fixedsize" "true"]))
              (colors m) in
        Elem (Table (Elem (Tr (Items cells)))
                    [kw_int "border" 1; kw_int "cellborder" 0;
                     kw_int "cellspacing" 0; kw_int "height" 8;
                     kw_int "width" (8 * Z.of_nat (List.length cells) + 2);
                     kw_str "fixedsize" "true"])
  end.

(** [html_size_attr_dict], lines 520-532.  An image object is true. *)
Definition html_size_attr_dict (image : Image.t) : Attribs :=
  ((if truthy (Image.width image) then [("width", Image.width image)] else [])
   ++ (if truthy (Image.height image) then [("height", Image.height image)] else [])
   ++ (if Image.fixedsize image then [kw_str "fixedsize" "true"] else []))%list.

(** ** Wire stripes *)

(** [gv_wire_cell], lines 302-330.  The loop runs over the color list
    reversed, [color_list[::-1]]. *)
Definition gv_wire_cell (wire : Wire.t) (colspan : Z) : Tag :=
  let color_list :=
    match Wire.color wire with
    | Some m =>
        if has_color (Some m) then ([black] ++ html_padded_list m ++ [black])%list
        else [black]
    | None => [black]
    end in
  let wire_inner_rows :=
    fold_left
      (fun rows bgcolor =>
         let wire_inner_cell_attribs :=
           [kw_str "bgcolor" (if String.eqb bgcolor EmptyString then black else bgcolor);
            kw_int "border" 0; kw_int "cellpadding" 0;
            kw_int "colspan" colspan; kw_int "height" 2] in
         (rows ++ [Elem (Tr (Elem (Td (Text EmptyString) wire_inner_cell_attribs)))])%list)
      (rev color_list) [] in
  let wire_inner_table :=
    Table (Items wire_inner_rows)
          [kw_int "border" 0; kw_int "cellborder" 0; kw_int "cellspacing" 0] in
  let wire_outer_cell_attribs :=
    [kw_int "border" 0; kw_int "cellspacing" 0; kw_int "cellpadding" 0;
     kw_int "colspan" colspan;
     kw_int "height" (2 * Z.of_nat (List.length color_list));
     kw_str "port" ("w" ++ str_int (Wire.index wire + 1))] in
  Td (Elem wire_inner_table) wire_outer_cell_attribs.

(** ** Loop edges *)

(** [gv_connector_loops], lines 236-250. *)
Definition gv_connector_loops (connector : Connector.t)
  : result (list (string * string)) :=
  let loop_edges : list (string * string) := [] in
  side <- (if Connector.ports_left connector then Ok ("l", "w")
           else if Connector.ports_right connector then Ok ("r", "e")
           else Raise (Exception "No side for loops")) ;;
  let loop_side := fst side in
  let loop_dir := snd side in
  Ok (fold_left
        (fun loop_edges loop =>
           let head := Connector.designator connector ++ ":p" ++ str_int (fst loop)
                       ++ loop_side ++ ":" ++ loop_dir in
           let tail := Connector.designator connector ++ ":p" ++ str_int (snd loop)
                       ++ loop_side ++ ":" ++ loop_dir in
           (loop_edges ++ [(head, tail)])%list)
        (Connector.loops connector) loop_edges).

(** ** Component renderer *)

Section Rendering.

Variable ext : Externals.

(** [str(color)], where the color may be [None]. *)
Definition str_opt_color (color : option MultiColor) : string :=
  match color with
  | None => "None"
  | Some m => str_color ext m
  end.

(** [str(color) if color else alt] *)
Definition color_name_or (alt : Atom) (color : option MultiColor) : Atom :=
  match color with
  | Some m => if has_color (Some m) then AStr (str_color ext m) else alt
  | None => alt
  end.

(** [colorbar_cell(color) if color else None] *)
Definition colorbar_or_none (color : option MultiColor) : Node :=
  match color with
  | Some m => if has_color (Some m) then Elem (colorbar_cell m) else None_
  | None => None_
  end.

(** [gv_pin_row], lines 223-233. *)
Definition gv_pin_row (pin : Pin.t) (connector : Connector.t) : Tag :=
  let has_pincolors :=
    existsb (fun _pin => has_color (Pin.color (snd _pin)))
            (Connector.pin_objects connector) in
  let cells :=
    [ if Connector.ports_left connector
      then Elem (Td (Leaf (Pin.id pin))
                    [kw_str "port" ("p" ++ str_int (Pin.index pin + 1) ++ "l")])
      else None_;
      Elem (set_delete_if_empty true (Td (Leaf (Pin.label pin)) []));
      if has_pincolors
      then Elem (Td (Leaf (color_name_or (AStr EmptyString) (Pin.color pin)))
                    [kw_str "sides" "TBL"])
      else None_;
      if has_pincolors
      then Elem (Td (color_minitable (Pin.color pin)) [kw_str "sides" "TBR"])
      else None_;
      if Connector.ports_right connector
      then Elem (Td (Leaf (Pin.id pin))
                    [kw_str "port" ("p" ++ str_int (Pin.index pin + 1) ++ "r")])
      else None_ ] in
  Tr (Items cells).

(** [gv_pin_table], lines 214-220. *)
Definition gv_pin_table (component : Connector.t) : Tag :=
  let pin_rows :=
    fold_left
      (fun pin_rows kv =>
         let pin := snd kv in
         if should_show_pin ext component (Pin.id pin)
         then (pin_rows ++ [Elem (gv_pin_row pin component)])%list
         else pin_rows)
      (Connector.pin_objects component) [] in
  Table (Items pin_rows) wrap_attribs.

Definition spacer_row : Node := Elem (Tr (Elem (Td (Text "&nbsp;") []))).

(** The texts [ins] and [outs] of the connections that use the wire,
    lines 272-278. *)
Definition wire_ends (cable : Cable.t) (wire : Wire.t) : list string * list string :=
  fold_left
    (fun io conn =>
       if atom_eqb (Wire.id (Connection.via conn)) (Wire.id wire)
       then
         let ins := match Connection.from_ conn with
                    | Some p => (fst io ++ [str_pin ext p])%list
                    | None => fst io
                    end in
         let outs := match Connection.to conn with
                     | Some p => (snd io ++ [str_pin ext p])%list
                     | None => snd io
                     end in
         (ins, outs)
       else io)
    (Cable._connections cable) ([], []).

(** The texts that are neither [None] nor empty. *)
Definition nonblank (parts : list (option string)) : list string :=
  flat_map (fun wi => match wi with
                      | Some s => if String.eqb s EmptyString then [] else [s]
                      | None => []
                      end) parts.

(** One round of the loop of [gv_conductor_table], lines 258-291: the
    state is the rows built so far and [inserted_break_inbetween]. *)
Definition conductor_step (cable : Cable.t) (st : list Node * bool) (wire : Wire.t)
  : list Node * bool :=
  let st :=
    if Wire.is_shield wire && negb (snd st)
    then ((fst st ++ [spacer_row])%list, true)
    else st in
  let rows := fst st in
  let wireinfo :=
    ((if Cable.show_wirenumbers cable && negb (Wire.is_shield wire)
      then [Some (str_atom (Wire.id wire))] else [])
     ++ [Some (str_opt_color (Wire.color wire)); Wire.label wire])%list in
  let io := wire_ends cable wire in
  let cells_above :=
    [ Elem (Td (Text (" " ++ join ", " (fst io))) [kw_str "align" "left"]);
      if atom_eqb (Cable.category cable) (AStr "bundle")
      then Elem (Td (bom_bubble (Wire.bom_id wire)) []) else None_;
      Elem (Td (Text (join ":" (nonblank wireinfo))) []);
      Elem (Td (Text (join ", " (snd io) ++ " ")) [kw_str "align" "right"]) ] in
  let cells_above := filter is_not_none cells_above in
  let rows := (rows ++ [Elem (Tr (Items cells_above))])%list in
  let rows :=
    (rows ++ [Elem (Tr (Elem (gv_wire_cell wire (Z.of_nat (List.length cells_above)))))])%list in
  (rows, snd st).

(** [gv_conductor_table], lines 253-299. *)
Definition gv_conductor_table (cable : Cable.t) : Tag :=
  let rows := [spacer_row] in
  let inserted_break_inbetween := false in
  let st := fold_left (conductor_step cable)
                      (map snd (Cable.wire_objects cable))
                      (rows, inserted_break_inbetween) in
  let rows := (fst st ++ [spacer_row])%list in
  Table (Items rows) [kw_int "border" 0; kw_int "cellborder" 0; kw_int "cellspacing" 0].

(** [gv_additional_component_table], lines 105-122. *)
Definition gv_additional_component_table (component : Component) : Node :=
  if Nat.eqb (List.length (Comp.additional_components component)) 0 then None_
  else
    let rows :=
      fold_left
        (fun rows subitem =>
           (rows ++
            [Elem (Tr (Items
               [ Elem (Td (bom_bubble (AdditionalComponent.bom_id subitem)) []);
                 Elem (Td (Text (str_atom (AdditionalComponent.bom_qty subitem))) []);
                 Elem (Td (Text (if truthy (AdditionalComponent.unit subitem)
                                 then str_atom (AdditionalComponent.unit subitem)
                                 else "x")) []);
                 Elem (Td (Text (str_atom (AdditionalComponent.description subitem))) [])
               ]))])%list)
        (Comp.additional_components component) [] in
    Elem (Table (Items rows) [kw_int "border" 0]).

(** [image_and_caption_cells], lines 489-517. *)
Definition image_and_caption_cells (component : Component) : Node * Node :=
  match Comp.image component with
  | None => (None_, None_)
  | Some image =>
      let image_tag := Img [("scale", Image.scale image); ("src", Image.src image)] in
      let image_cell_inner := set_flat true (Td (Elem image_tag) []) in
      let image_cell :=
        if Image.fixedsize image
        then
          let image_cell_inner :=
            update_attribs (html_size_attr_dict image) image_cell_inner in
          Td (Elem (Table (Elem (Tr (Elem image_cell_inner)))
                          [kw_int "border" 0; kw_int "cellborder" 0;
                           kw_int "cellspacing" 0; kw_str "id" "!"])) []
        else image_cell_inner in
      let image_cell :=
        update_attribs
          [kw_str "balign" "left";
           kw_str "bgcolor" (html (Image.bgcolor image));
           ("sides", if truthy (Image.caption image) then AStr "TLR" else ANone)]
          image_cell in
      let caption_cell :=
        if truthy (Image.caption image)
        then Elem (Td (Text (str_atom (html_line_breaks ext (Image.caption image))))
                      [kw_str "balign" "left"; kw_str "sides" "BLR"])
        else None_ in
      (Elem image_cell, caption_cell)
  end.

(** The default-side rule of [gv_node_component], lines 29-31: the
    assignment [component.ports_left = True]. *)
Definition default_side (component : Component) : Component :=
  match component with
  | IsConnector c =>
      if negb (Connector.ports_left c || Connector.ports_right c)
      then IsConnector (Connector.set_ports_left true c)
      else component
  | IsCable _ => component
  end.

(** [tbl.contents[0].contents.update_attribs(port="p1l")], lines 99-100:
    the first row of the table and its cell are updated in place.  A single
    row that is not in a list cannot be indexed. *)
Definition tag_first_cell (tbl : Tag) : result Tag :=
  match contents tbl with
  | Items [] => Raise IndexError
  | Items (Elem row :: rest) =>
      match contents row with
      | Elem first_cell_in_tbl =>
          let cell := update_attribs [kw_str "port" "p1l"] first_cell_in_tbl in
          Ok (set_contents (Items (Elem (set_contents (Elem cell) row) :: rest)) tbl)
      | _ => Raise AttributeError
      end
  | Items (_ :: _) => Raise AttributeError
  | Elem _ => Raise TypeError
  | Leaf _ => Raise TypeError
  end.

(** [gv_node_component], lines 27-102.  The component object is shared
    with the caller: the first component of the result is the object after
    the call, the second the table returned or the exception raised. *)
Definition gv_node_component (component : Component) : Component * result Tag :=
  let component := default_side component in
  (component,
   let line_name :=
     if Comp.show_name component
     then Elem (colored_cell (Text (remove_links ext (Comp.designator component)))
                             (Comp.bgcolor_title component))
     else None_ in
   let line_pn := partnumbers_to_list ext (Comp.partnumbers component) in
   let is_simple_connector :=
     match component with
     | IsConnector c => atom_eqb (Connector.style c) (AStr "simple")
     | IsCable _ => false
     end in
   let line_info :=
     match component with
     | IsConnector c =>
         Items
           [ bom_bubble (Connector.bom_id c);
             Leaf (html_line_breaks ext (Connector.type c));
             Leaf (html_line_breaks ext (Connector.subtype c));
             if Connector.show_pincount c
             then Text (str_int (Connector.pincount c) ++ "-pin") else None_;
             Leaf (color_name_or ANone (Connector.color c));
             colorbar_or_none (Connector.color c) ]
     | IsCable c =>
         Items
           [ if negb (atom_eqb (Cable.category c) (AStr "bundle"))
             then bom_bubble (Cable.bom_id c) else None_;
             Leaf (html_line_breaks ext (Cable.type c));
             if Cable.show_wirecount c
             then Text (str_int (Cable.wirecount c) ++ "x") else None_;
             Leaf (Cable.gauge_str_with_equiv c);
             if Cable.shield c then Text "+ S" else None_;
             Leaf (Cable.length_str c);
             Leaf (color_name_or ANone (Cable.color c));
             colorbar_or_none (Cable.color c) ]
     end in
   let line_image_and_caption := image_and_caption_cells component in
   let line_image := fst line_image_and_caption in
   let line_image_caption := snd line_image_and_caption in
   let line_additional_component_table := gv_additional_component_table component in
   let line_notes := Items [Leaf (html_line_breaks ext (Comp.notes component))] in
   let line_ports :=
     match component with
     | IsConnector c =>
         if negb (atom_eqb (Connector.style c) (AStr "simple"))
         then Elem (gv_pin_table c) else None_
     | IsCable c => Elem (gv_conductor_table c)
     end in
   let lines :=
     [ line_name; line_pn; line_info; line_ports; line_image;
       line_image_caption; line_additional_component_table; line_notes ] in
   tbl <- nested_table lines ;;
   if is_simple_connector
   then tag_first_cell (update_attribs [kw_str "port" "p1r"] tbl)
   else Ok tbl).

End Rendering.

(** ** Tweak engine *)

Module Tweaks.

(** A value of the tweak input: an atom, a list or a dictionary (whose
    keys, being hashable, are atoms). *)
#[warnings="-register-all"] Inductive PyVal : Type :=
| PAtom (a : Atom)
| PList (l : list PyVal)
| PDict (d : list (Atom * PyVal)).

Definition PStr (s : string) : PyVal := PAtom (AStr s).

Record Tweak : Type := {
  override : PyVal;
  append : PyVal
}.

(** The document under construction: the lines of [dot.body], and the
    warnings printed so far. *)
Record Dot : Type := {
  body : list PyVal;
  stdout : list string
}.

(** [isinstance(v, str)], [isinstance(v, dict)],
    [isinstance(v, (str, type(None)))], [v is not None] *)
Definition is_str (v : PyVal) : bool :=
  match v with PAtom (AStr _) => true | _ => false end.
Definition is_dict (v : PyVal) : bool :=
  match v with PDict _ => true | _ => false end.
Definition is_str_or_none (v : PyVal) : bool :=
  match v with PAtom (AStr _) | PAtom ANone => true | _ => false end.
Definition given (v : PyVal) : bool :=
  match v with PAtom ANone => false | _ => true end.

(** [d.get(k)] on the items of a dictionary. *)
Fixpoint dict_get (k : Atom) (d : list (Atom * PyVal)) : option PyVal :=
  match d with
  | [] => None
  | (k', v) :: rest => if atom_eqb k k' then Some v else dict_get k rest
  end.

(** [l[i] = v], for [i] within the list. *)
Fixpoint set_item (i : nat) (v : PyVal) (l : list PyVal) : list PyVal :=
  match l, i with
  | [], _ => []
  | _ :: rest, O => v :: rest
  | x :: rest, S j => x :: set_item j v rest
  end.

(** [enumerate(l)], counting from [start]. *)
Fixpoint enumerate {A} (start : nat) (l : list A) : list (nat * A) :=
  match l with
  | [] => []
  | x :: rest => (start, x) :: enumerate (S start) rest
  end.

(** Computations that read and write the document and may raise. *)
Definition M (A : Type) : Type := Dot -> Dot * result A.

Definition ret {A} (a : A) : M A := fun d => (d, Ok a).
Definition raise {A} (e : exn) : M A := fun d => (d, Raise e).
Definition bindM {A B} (c : M A) (k : A -> M B) : M B :=
  fun d =>
    match c d with
    | (d', Ok a) => k a d'
    | (d', Raise e) => (d', Raise e)
    end.
Definition lift {A} (r : result A) : M A := fun d => (d, r).
Definition get_body : M (list PyVal) := fun d => (d, Ok (body d)).
Definition put_body (b : list PyVal) : M unit :=
  fun d => ({| body := b; stdout := stdout d |}, Ok tt).
Definition print (line : string) : M unit :=
  fun d => ({| body := body d; stdout := (stdout d ++ [line])%list |}, Ok tt).

End Tweaks.
Import Tweaks.

Declare Scope tweak_scope.
Delimit Scope tweak_scope with tweak.
Notation "x <~ c ;; k" := (bindM c (fun x => k))
  (at level 61, c at next level, right associativity) : tweak_scope.
Notation "c ~;; k" := (bindM c (fun _ => k))
  (at level 61, right associativity) : tweak_scope.
Open Scope tweak_scope.

(** [for x in l: f(x)] *)
Fixpoint for_each {A} (f : A -> M unit) (l : list A) : M unit :=
  match l with
  | [] => ret tt
  | x :: rest => f x ~;; for_each f rest
  end.

(** [for x in l: acc = f(acc, x)] *)
Fixpoint for_fold {A B} (f : B -> A -> M B) (l : list A) (acc : B) : M B :=
  match l with
  | [] => ret acc
  | x :: rest => acc' <~ f acc x ;; for_fold f rest acc'
  end.

(** [typecheck], lines 560-565.  The message stops at the name; the types
    and the value that follow it in the Python message are left out. *)
Definition typecheck (name : string) (value : PyVal) (expect : PyVal -> bool)
  : M unit :=
  if negb (expect value)
  then raise (Exception ("Unexpected value type of " ++ name))
  else ret tt.

(** Validation of [tweak.override], lines 569-575. *)
Definition check_attr_edit (k : Atom) (av : Atom * PyVal) : M unit :=
  let a := fst av in
  let v := snd av in
  typecheck ("tweak.override." ++ str_atom k ++ "." ++ str_atom a ++ " key")
            (PAtom a) is_str ~;;
  typecheck ("tweak.override." ++ str_atom k ++ "." ++ str_atom a ++ " value")
            v is_str_or_none.

Definition check_keyword_edit (kd : Atom * PyVal) : M unit :=
  let k := fst kd in
  let d := snd kd in
  typecheck ("tweak.override." ++ str_atom k ++ " key") (PAtom k) is_str ~;;
  typecheck ("tweak.override." ++ str_atom k ++ " value") d is_dict ~;;
  match d with
  | PDict attrs => for_each (check_attr_edit k) attrs
  | _ => raise AttributeError
  end.

Definition check_override (override : PyVal) : M unit :=
  typecheck "tweak.override" override is_dict ~;;
  match override with
  | PDict items => for_each check_keyword_edit items
  | _ => raise AttributeError
  end.

Section TweakEngine.

(** The regular expression engine of the Python library:
    [re.match(pattern, string, re.S)] as the groups of the match, if any;
    [re.subn(pattern, repl, string)]; [re.sub(pattern, repl, string)].
    The last two are called with a pattern and a replacement built from
    the attribute name and value of the tweak, and raise ([re.error]) on
    a pattern or a replacement that the engine does not accept. *)
Variable re_match : string -> string -> option (nat -> option string).
Variable re_subn : string -> string -> string -> result (string * Z).
Variable re_sub : string -> string -> string -> result string.

(** The pattern of line 582: a possibly quoted keyword after leading tabs,
    followed by an attribute list in brackets. *)
Definition keyword_pattern : string :=
  "^\t*(" ++ dquote ++ ")?((?(1)[^" ++ dquote ++ "]|[^ " ++ dquote ++ "])+)(?(1)"
  ++ dquote ++ ") \[.*\]$".

(** The pattern of an attribute assignment, lines 590 and 608. *)
Definition assignment_pattern (attr : string) : string :=
  attr ++ "=(" ++ dquote ++ "[^" ++ dquote ++ "]*" ++ dquote ++ "|[^] ]*)".

(** One round of the loop over the attribute edits, lines 587-617, on the
    local variable [entry]. *)
Definition edit_attribute (keyword : string) (entry : string) (av : Atom * PyVal)
  : M string :=
  let attr := str_atom (fst av) in
  match snd av with
  | PAtom ANone =>
      r <~ lift (re_subn ("( +)?" ++ assignment_pattern attr ++ "(?(1)| *)")
                         EmptyString entry) ;;
      let entry := fst r in
      let n_subs := snd r in
      (if n_subs <? 1
       then print ("Harness.create_graph() warning: " ++ attr
                   ++ " not found in " ++ keyword ++ "!")
       else if 1 <? n_subs
       then print ("Harness.create_graph() warning: " ++ attr ++ " removed "
                   ++ str_int n_subs ++ " times in " ++ keyword ++ "!")
       else ret tt) ~;;
      ret entry
  | PAtom (AStr value) =>
      let value :=
        if (len value =? 0) || contains " "%char value
        then dquote ++ replace dquote_char ("\" ++ dquote) value ++ dquote
        else value in
      r <~ lift (re_subn (assignment_pattern attr) (attr ++ "=" ++ value) entry) ;;
      let entry := fst r in
      let n_subs := snd r in
      if n_subs <? 1
      then lift (re_sub "\]$" (" " ++ attr ++ "=" ++ value ++ "]") entry)
      else if 1 <? n_subs
      then print ("Harness.create_graph() warning: " ++ attr ++ " overridden "
                  ++ str_int n_subs ++ " times in " ++ keyword ++ "!") ~;;
           ret entry
      else ret entry
  | _ => raise TypeError     (* [len] of a value the validation excludes *)
  end.

(** One round of the loop over the lines, lines 578-619. *)
Definition override_entry (items : list (Atom * PyVal)) (ie : nat * PyVal) : M unit :=
  let i := fst ie in
  match snd ie with
  | PAtom (AStr entry) =>
      let keyword :=
        match re_match keyword_pattern entry with
        | Some groups => match groups 2%nat with Some k => AStr k | None => ANone end
        | None => ANone
        end in
      match dict_get keyword items with
      | None => ret tt
      | Some (PDict attrs) =>
          entry <~ for_fold (edit_attribute (str_atom keyword)) attrs entry ;;
          b <~ get_body ;;
          put_body (set_item i (PStr entry) b)
      | Some _ => raise AttributeError
      end
  | _ => ret tt
  end.

(** [apply_dot_tweaks], lines 559-628. *)
Definition apply_dot_tweaks (tweak : Tweak) : M unit :=
  (if given (override tweak)
   then
     check_override (override tweak) ~;;
     lines <~ get_body ;;
     match override tweak with
     | PDict items => for_each (override_entry items) (enumerate 0 lines)
     | _ => raise AttributeError
     end
   else ret tt) ~;;
  (if given (append tweak)
   then
     match append tweak with
     | PList elements =>
         for_each (fun ie => typecheck ("tweak.append[" ++ str_int (Z.of_nat (fst ie)) ++ "]")
                                       (snd ie) is_str)
                  (enumerate 1 elements) ~;;
         b <~ get_body ;;
         put_body (b ++ elements)%list
     | element =>
         typecheck "tweak.append" element is_str ~;;
         b <~ get_body ;;
         put_body (b ++ [element])%list
     end
   else ret tt).

End TweakEngine.

(** ** Node background *)

(** Modelled from the spec: the harness options, of which
    [calculate_node_bgcolor] reads the colors per role. *)
Module Options.
Record t : Type := {
  bgcolor_connector : option SingleColor;
  bgcolor_cable : option SingleColor;
  bgcolor_bundle : option SingleColor
}.
End Options.

Section NodeBackground.

(** The truth value of a color object of the absent class [SingleColor]. *)
Variable color_is_set : SingleColor -> bool.

(** The truth value of an optional color. *)
Definition color_given (c : option SingleColor) : bool :=
  match c with
  | None => false
  | Some col => color_is_set col
  end.

(** [c.html] for a color the caller found true. *)
Definition html_of (c : option SingleColor) : option string :=
  match c with
  | None => None
  | Some col => Some (html col)
  end.

(** [calculate_node_bgcolor], lines 125-139; without a color to return the
    function ends and gives [None]. *)
Definition calculate_node_bgcolor (component : Component) (harness_options : Options.t)
  : option string :=
  let bgcolor :=
    match component with
    | IsConnector c => Connector.bgcolor c
    | IsCable c => Cable.bgcolor c
    end in
  if color_given bgcolor then html_of bgcolor
  else if match component with IsConnector _ => true | IsCable _ => false end
          && color_given (Options.bgcolor_connector harness_options)
  then html_of (Options.bgcolor_connector harness_options)
  else if match component with
          | IsCable c => atom_eqb (Cable.category c) (AStr "bundle")
          | IsConnector _ => false
          end
          && color_given (Options.bgcolor_bundle harness_options)
  then html_of (Options.bgcolor_bundle harness_options)
  else if match component with IsCable _ => true | IsConnector _ => false end
          && color_given (Options.bgcolor_cable harness_options)
  then html_of (Options.bgcolor_cable harness_options)
  else None.

End NodeBackground.

(** ** Wire and mate edges *)

Module Edges.

(** The result of a function that looks a key up in a dictionary: its
    value, or the [KeyError] of a missing key. *)
Inductive looked_up (A : Type) : Type :=
| Found (a : A)
| KeyError (key : string).
Arguments Found {A} a.
Arguments KeyError {A} key.

(** [d[key]] on the items of a dictionary keyed by designators. *)
Fixpoint lookup {A} (key : string) (d : list (string * A)) : looked_up A :=
  match d with
  | [] => KeyError key
  | (k, v) :: rest => if String.eqb key k then Found v else lookup key rest
  end.

(** Modelled from the spec: the harness, of which [gv_edge_wire] reads the
    dictionary of connectors by designator. *)
Record Harness : Type := {
  connectors : list (string * Connector.t)
}.

(** The tuple returned by [gv_edge_wire]. *)
Record WireEdge : Type := {
  color : string;
  code_left_1 : option string;
  code_left_2 : option string;
  code_right_1 : option string;
  code_right_2 : option string
}.

Inductive ArrowWeight : Type := SINGLE | DOUBLE.

(** Modelled from the spec: the arrow of a mate. *)
Record Arrow : Type := {
  direction : ArrowDirection;
  weight : ArrowWeight
}.

(** Modelled from the spec: a mate joins two pins or two components. *)
Inductive Mate : Type :=
| MatePin (from_ to : Pin.t) (arrow : Arrow)
| MateComponent (from_ to : string) (arrow : Arrow).

Definition arrow_of (mate : Mate) : Arrow :=
  match mate with
  | MatePin _ _ a => a
  | MateComponent _ _ a => a
  end.

(** [direction.name.lower()] *)
Definition direction_name_lower (d : ArrowDirection) : string :=
  match d with
  | NONE => "none"
  | BACK => "back"
  | FORWARD => "forward"
  | BOTH => "both"
  end.

End Edges.
Import Edges.

Section WireEdges.

(** The property [html_padded] of the absent class [MultiColor]. *)
Variable html_padded : MultiColor -> string.

(** The port segment of a pin of a connector, lines 383-387 and 395-399:
    empty for a connector of style [simple]. *)
Definition port_str (harness : Harness) (pin : Pin.t) (side : string)
  : looked_up string :=
  match lookup (Pin.parent pin) (connectors harness) with
  | KeyError key => KeyError key
  | Found connector =>
      Found (if negb (atom_eqb (Connector.style connector) (AStr "simple"))
             then ":p" ++ str_int (Pin.index pin + 1) ++ side
             else EmptyString)
  end.

(** [gv_edge_wire], lines 375-405. *)
Definition gv_edge_wire (harness : Harness) (cable : Cable.t)
  (connection : Connection.t) : looked_up WireEdge :=
  let via := Connection.via connection in
  let color :=
    match Wire.color via with
    | Some m => if has_color (Some m)
                then black ++ ":" ++ html_padded m ++ ":" ++ black
                else black
    | None => black
    end in
  match
    match Connection.from_ connection with
    | Some from_ =>
        match port_str harness from_ "r" with
        | KeyError key => KeyError key
        | Found from_port_str =>
            Found (Some (Pin.parent from_ ++ from_port_str ++ ":e"),
                   Some (Wire.parent via ++ ":w" ++ str_int (Wire.index via + 1) ++ ":w"))
        end
    | None => Found (None, None)
    end
  with
  | KeyError key => KeyError key
  | Found code_left =>
      match
        match Connection.to connection with
        | Some to =>
            match port_str harness to "l" with
            | KeyError key => KeyError key
            | Found to_port_str =>
                Found (Some (Wire.parent via ++ ":w" ++ str_int (Wire.index via + 1) ++ ":e"),
                       Some (Pin.parent to ++ to_port_str ++ ":w"))
            end
        | None => Found (None, None)
        end
      with
      | KeyError key => KeyError key
      | Found code_right =>
          Found {| color := color;
                   code_left_1 := fst code_left; code_left_2 := snd code_left;
                   code_right_1 := fst code_right; code_right_2 := snd code_right |}
      end
  end.

End WireEdges.

(** [gv_edge_mate], lines 419-445.  The two weights and the two kinds of
    mate are all there are, so the last branch, which raises, is not
    reached. *)
Definition gv_edge_mate (mate : Mate) : string * string * string * string :=
  let color :=
    match weight (arrow_of mate) with
    | SINGLE => black
    | DOUBLE => black ++ ":" ++ black
    end in
  let dir := direction_name_lower (direction (arrow_of mate)) in
  let ends :=
    match mate with
    | MatePin from_ to _ =>
        (Pin.parent from_, ":p" ++ str_int (Pin.index from_ + 1) ++ "r",
         Pin.parent to, ":p" ++ str_int (Pin.index to + 1) ++ "l")
    | MateComponent from_ to _ => (from_, EmptyString, to, EmptyString)
    end in
  let from_designator := fst (fst (fst ends)) in
  let from_port_str := snd (fst (fst ends)) in
  let to_designator := snd (fst ends) in
  let to_port_str := snd ends in
  let code_from := from_designator ++ from_port_str ++ ":e" in
  let code_to := to_designator ++ to_port_str ++ ":w" in
  (color, dir, code_from, code_to).

(** ** Vocabulary of the properties *)

(** The first and the last character of a text. *)
Definition first_char (s : string) : option ascii :=
  match s with
  | EmptyString => None
  | String c _ => Some c
  end.

Fixpoint last_char (s : string) : option ascii :=
  match s with
  | EmptyString => None
  | String c EmptyString => Some c
  | String _ rest => last_char rest
  end.

(** The direction announced by a leading [<] and a trailing [>]. *)
Definition direction_of (leading trailing : bool) : ArrowDirection :=
  match leading, trailing with
  | true, true => BOTH
  | true, false => BACK
  | false, true => FORWARD
  | false, false => NONE
  end.

(** The endpoint [<designator>:p<pin><side>:<compass>] of a loop edge. *)
Definition loop_endpoint (designator : string) (pin : Z) (side compass : string)
  : string :=
  designator ++ ":p" ++ str_int pin ++ side ++ ":" ++ compass.

(** The edges of the loops of a connector on one side. *)
Definition loop_edges_on (side compass : string) (connector : Connector.t)
  : list (string * string) :=
  map (fun loop =>
         (loop_endpoint (Connector.designator connector) (fst loop) side compass,
          loop_endpoint (Connector.designator connector) (snd loop) side compass))
      (Connector.loops connector).

(** The cells of a row, left to right. *)
Definition row_cells (row : Tag) : list Node :=
  match contents row with
  | Items cells => cells
  | other => [other]
  end.

(** The port a cell is tagged with, [None] when it has none. *)
Definition port_of (cell : Node) : Atom :=
  match cell with
  | Elem t => attr_get "port" ANone (attribs t)
  | _ => ANone
  end.

(** The pin-id cell of a pin on one side, tagged [p<index+1><side>]. *)
Definition pin_id_cell (pin : Pin.t) (side : string) : Node :=
  Elem (Td (Leaf (Pin.id pin))
           [kw_str "port" ("p" ++ str_int (Pin.index pin + 1) ++ side)]).

(** The background colors of the bands of a wire stripe, top to bottom:
    the rows of the table inside the stripe cell, in order. *)
Definition band_color (row : Node) : Atom :=
  match row with
  | Elem tr =>
      match contents tr with
      | Elem td => attr_get "bgcolor" ANone (attribs td)
      | _ => ANone
      end
  | _ => ANone
  end.

Definition stripe_bands (cell : Tag) : list Atom :=
  match contents cell with
  | Elem table => map band_color (row_cells table)
  | _ => []
  end.

(** The color a band is filled with: black stands in for an empty color. *)
Definition band_fill (bgcolor : string) : Atom :=
  AStr (if String.eqb bgcolor EmptyString then black else bgcolor).

(** The cells of a logical row that survive: the candidates that are not
    [None], as cells, without the cells whose content is [None]. *)
Definition surviving_cells (line : Node) : list Tag :=
  filter (fun cell => is_not_none (contents cell)) (make_list_of_cells line).

(** The table that is the content of the only cell, if the cells are
    exactly one cell whose content is a table. *)
Definition lone_table (cells : list Tag) : option Tag :=
  match cells with
  | [c] =>
      match contents c with
      | Elem t => if kind_eqb (kind t) KTable then Some t else None
      | _ => None
      end
  | _ => None
  end.

(** A table is marked for forced wrapping by a [!] in its [id]. *)
Definition force_wrap (t : Tag) : bool :=
  match attr_get "id" (AStr EmptyString) (attribs t) with
  | AStr s => contains "!"%char s
  | _ => false
  end.

(** The [id] of a table, when it has one, is a text. *)
Definition id_is_text (t : Tag) : bool :=
  match attr_get "id" (AStr EmptyString) (attribs t) with
  | AStr _ => true
  | _ => false
  end.

(** The bordered sub-table around the cells of a row. *)
Definition bordered_subtable (cells : list Tag) : Node :=
  Elem (Table (Elem (Tr (Items (map Elem cells))))
              [kw_int "border" 0; kw_int "cellborder" 1;
               kw_int "cellpadding" 3; kw_int "cellspacing" 0]).

(** The content of the row a logical row becomes, in the words of the
    design document: the inner table itself for a lone unmarked table, a
    bordered sub-table around the surviving cells otherwise, and no row
    when no cell survives. *)
Definition row_content (line : Node) : option Node :=
  match lone_table (surviving_cells line) with
  | Some t =>
      if force_wrap t then Some (bordered_subtable (surviving_cells line))
      else Some (Elem t)
  | None =>
      match surviving_cells line with
      | [] => None
      | cells => Some (bordered_subtable cells)
      end
  end.

Definition row_contents (lines : list Node) : list Node :=
  flat_map (fun line => match row_content line with
                        | Some c => [c]
                        | None => []
                        end) lines.

(** The row that holds one content, and the row with one empty cell. *)
Definition row_around (content : Node) : Node :=
  Elem (Tr (Elem (Td content []))).

Definition empty_row : Tag := Tr (Elem (Td (Text EmptyString) [])).

(** The outer table: unbordered, without spacing or padding. *)
Definition outer_table (rows : Node) : Tag :=
  Table rows [kw_int "border" 0; kw_int "cellspacing" 0; kw_int "cellpadding" 0].

(** The lone table of a logical row, if any, has a text for [id]. *)
Definition well_typed_line (line : Node) : bool :=
  match lone_table (surviving_cells line) with
  | Some t => id_is_text t
  | None => true
  end.

(** An attribute edit is malformed when its name is not a text or its
    value is neither a text nor [None]; the edit of a keyword is malformed
    when the keyword is not a text, or its value is not a mapping, or one
    of its attribute edits is malformed. *)
Definition malformed_attr_edit (av : Atom * PyVal) : bool :=
  negb (is_str (PAtom (fst av))) || negb (is_str_or_none (snd av)).

Definition malformed_keyword_edit (kd : Atom * PyVal) : bool :=
  negb (is_str (PAtom (fst kd)))
  || match snd kd with
     | PDict attrs => existsb malformed_attr_edit attrs
     | _ => true
     end.

(** The colors a node background is taken from, in order of priority. *)
Definition bgcolor_candidates (component : Component) (harness_options : Options.t)
  : list (option SingleColor) :=
  match component with
  | IsConnector c =>
      [Connector.bgcolor c; Options.bgcolor_connector harness_options]
  | IsCable c =>
      if atom_eqb (Cable.category c) (AStr "bundle")
      then [Cable.bgcolor c; Options.bgcolor_bundle harness_options;
            Options.bgcolor_cable harness_options]
      else [Cable.bgcolor c; Options.bgcolor_cable harness_options]
  end.

(** The [html] of the first color that is given. *)
Fixpoint first_given (color_is_set : SingleColor -> bool)
  (candidates : list (option SingleColor)) : option string :=
  match candidates with
  | [] => None
  | c :: rest =>
      if color_given color_is_set c then html_of c
      else first_given color_is_set rest
  end.

(** The endpoint [<designator>:<port>:<compass>] of an edge at a port. *)
Definition endpoint (designator port compass : string) : string :=
  designator ++ ":" ++ port ++ ":" ++ compass.

(** The port the stripe cell of a wire is tagged with. *)
Definition wire_port (wire : Wire.t) : Atom :=
  attr_get "port" ANone (attribs (gv_wire_cell wire 3)).

(** The port of the pin-id cell of a pin on the left and on the right of
    its row in the pin table. *)
Definition pin_port_left (ext : Externals) (pin : Pin.t) (connector : Connector.t) : Atom :=
  match nth_error (row_cells (gv_pin_row ext pin connector)) 0 with
  | Some cell => port_of cell
  | None => ANone
  end.

Definition pin_port_right (ext : Externals) (pin : Pin.t) (connector : Connector.t) : Atom :=
  match nth_error (row_cells (gv_pin_row ext pin connector)) 4 with
  | Some cell => port_of cell
  | None => ANone
  end.

(** A row of the outer table that holds a table in its one cell. *)
Definition holds_table (row : Node) : Prop :=
  exists t, row = row_around (Elem t) /\ kind t = KTable.

(** The rows of the table inside a cell, and an attribute of the one cell
    of a row. *)
Definition inner_rows (cell : Tag) : list Node :=
  match contents cell with
  | Elem table => row_cells table
  | _ => []
  end.

Definition row_attr (name : string) (row : Node) : Atom :=
  match row with
  | Elem tr =>
      match contents tr with
      | Elem td => attr_get name ANone (attribs td)
      | _ => ANone
      end
  | _ => ANone
  end.

(** A blank row: one cell with a non-breaking space. *)
Definition is_blank_row (row : Node) : bool :=
  match row with
  | Elem tr =>
      match contents tr with
      | Elem td =>
          match contents td with
          | Leaf (AStr "&nbsp;") => true
          | _ => false
          end
      | _ => false
      end
  | _ => false
  end.

(** The wires of a cable, in the order of the harness. *)
Definition wires_of (cable : Cable.t) : list Wire.t :=
  map snd (Cable.wire_objects cable).

(** The pins of a connector that are shown. *)
Definition shown_pins (ext : Externals) (connector : Connector.t) : list Pin.t :=
  filter (fun pin => should_show_pin ext connector (Pin.id pin))
         (map snd (Connector.pin_objects connector)).

(** An item of a logical row that cannot make the search for the mark [!]
    fail: if it brings a table, the [id] of the table is a text. *)
Definition plain_item (item : Node) : Prop :=
  forall t, contents (as_td item) = Elem t -> kind t = KTable -> id_is_text t = true.

(** The table of the ports of a component: the pin table of a connector,
    the conductor table of a cable. *)
Definition ports_table (ext : Externals) (component : Component) : Tag :=
  match component with
  | IsConnector c => gv_pin_table ext c
  | IsCable c => gv_conductor_table ext c
  end.

(** A connector of style [simple]. *)
Definition is_simple (component : Component) : bool :=
  match component with
  | IsConnector c => atom_eqb (Connector.style c) (AStr "simple")
  | IsCable _ => false
  end.

(** The keyword of a line: the second group of the match of the keyword
    pattern, [None] without a match. *)
Definition keyword_of (re_match : string -> string -> option (nat -> option string))
  (entry : string) : Atom :=
  match re_match keyword_pattern entry with
  | Some groups => match groups 2%nat with Some k => AStr k | None => ANone end
  | None => ANone
  end.

(** A line is targeted by an override when it is a text whose keyword is a
    key of the override. *)
Definition targeted (re_match : string -> string -> option (nat -> option string))
  (items : list (Atom * PyVal)) (line : PyVal) : bool :=
  match line with
  | PAtom (AStr entry) =>
      match dict_get (keyword_of re_match entry) items with
      | Some _ => true
      | None => false
      end
  | _ => false
  end.

(** ** Sample data *)

(** A connector [C] with the loop [[1, 2]] and the given sides. *)
Definition sample_connector (left right : bool) : Connector.t :=
  {| Connector.designator := "C";
     Connector.show_name := true;
     Connector.bgcolor_title := {| html := "#FFFFFF" |};
     Connector.bgcolor := None;
     Connector.partnumbers := mkPartNumberInfo [];
     Connector.bom_id := ANone;
     Connector.type := AStr "Molex";
     Connector.subtype := ANone;
     Connector.pincount := 3;
     Connector.show_pincount := true;
     Connector.color := None;
     Connector.image := None;
     Connector.additional_components := [];
     Connector.notes := ANone;
     Connector.style := ANone;
     Connector.ports_left := left;
     Connector.ports_right := right;
     Connector.pin_objects :=
       [ (AInt 1, {| Pin.index := 0; Pin.id := AInt 1; Pin.label := AStr "GND";
                     Pin.color := None; Pin.parent := "C" |});
         (AInt 2, {| Pin.index := 1; Pin.id := AInt 2; Pin.label := AStr "VCC";
                     Pin.color := None; Pin.parent := "C" |});
         (AInt 3, {| Pin.index := 2; Pin.id := AInt 3; Pin.label := AStr "SIG";
                     Pin.color := None; Pin.parent := "C" |}) ];
     Connector.loops := [(1, 2)] |}.

(** The helpers of the absent modules, by simple stand-ins. *)
Definition sample_externals : Externals :=
  {| remove_links := fun s => s;
     html_line_breaks := fun a => a;
     partnumbers_to_list := fun _ => None_;
     should_show_pin := fun _ _ => true;
     str_color := fun m => join ":" (map html (colors m));
     str_pin := fun p => Pin.parent p ++ ":" ++ str_atom (Pin.id p) |}.

Definition red : string := "#FF0000".
Definition green : string := "#00FF00".

(** A wire with the given index and color. *)
Definition sample_wire (index : Z) (color : option MultiColor) : Wire.t :=
  {| Wire.index := index; Wire.id := AInt (index + 1); Wire.label := None;
     Wire.color := color; Wire.bom_id := ANone; Wire.parent := "W";
     Wire.is_shield := false |}.

(** The color with the two sub-colors red and green. *)
Definition red_green : MultiColor :=
  {| colors := [ {| html := red |}; {| html := green |} ];
     html_padded_list := [red; green] |}.

(** A table, the same table marked for forced wrapping, and logical rows
    around them. *)
Definition sample_table : Tag :=
  Table (Elem (Tr (Elem (Td (Text "GND") [])))) [kw_int "border" 0].

Definition sample_marked_table : Tag :=
  Table (Elem (Tr (Elem (Td (Text "GND") [])))) [kw_int "border" 0; kw_str "id" "!"].

Definition sample_lines : list Node :=
  [ None_;
    Elem sample_table;
    Items [None_; Text "Molex"; Text "3-pin"];
    Elem (Td (Elem sample_marked_table) []);
    Items [None_] ].

(** Logical rows that all collapse. *)
Definition sample_empty_lines : list Node :=
  [ None_; Items []; Items [None_; None_]; Elem (Td None_ []); Items [Elem (Td None_ [])] ].

(** A regular expression engine that never matches. *)
Definition never_match : string -> string -> option (nat -> option string) :=
  fun _ _ => None.
Definition never_subn : string -> string -> string -> result (string * Z) :=
  fun _ _ s => Ok (s, 0).
Definition never_sub : string -> string -> string -> result string :=
  fun _ _ s => Ok s.

(** A document of two lines, and a tweak whose override gives the number 3
    to the attribute [color]. *)
Definition sample_dot : Dot :=
  {| body := [PStr "X [color=red size=1]"; PStr "Y [color=red]"]; stdout := [] |}.

Definition sample_bad_tweak : Tweak :=
  {| override := PDict [ (AStr "Y", PDict [(AStr "size", PStr "2")]);
                         (AStr "X", PDict [(AStr "color", PAtom (AInt 3))]) ];
     append := PStr "// end" |}.

Definition sample_good_tweak : Tweak :=
  {| override := PDict [ (AStr "Y", PDict [(AStr "size", PStr "2")]) ];
     append := PStr "// end" |}.

(** Options with a color for cables only, and a bundle without a color of
    its own. *)
Definition sample_options : Options.t :=
  {| Options.bgcolor_connector := None;
     Options.bgcolor_cable := Some {| html := "#EEEEEE" |};
     Options.bgcolor_bundle := None |}.

Definition sample_cable (category : Atom) (wires : list Wire.t)
  (connections : list Connection.t) : Cable.t :=
  {| Cable.designator := "W";
     Cable.show_name := true;
     Cable.bgcolor_title := {| html := "#FFFFFF" |};
     Cable.bgcolor := None;
     Cable.partnumbers := mkPartNumberInfo [];
     Cable.bom_id := ANone;
     Cable.type := ANone;
     Cable.category := category;
     Cable.wirecount := Z.of_nat (List.length wires);
     Cable.show_wirecount := true;
     Cable.gauge_str_with_equiv := ANone;
     Cable.shield := false;
     Cable.length_str := ANone;
     Cable.color := None;
     Cable.image := None;
     Cable.additional_components := [];
     Cable.notes := ANone;
     Cable.wire_objects := map (fun w => (Wire.id w, w)) wires;
     Cable.show_wirenumbers := true;
     Cable._connections := connections |}.

(** The second pin of the sample connector [C], and a pin of a connector
    [D] that the harness does not know. *)
Definition sample_pin : Pin.t :=
  {| Pin.index := 1; Pin.id := AInt 2; Pin.label := AStr "VCC";
     Pin.color := None; Pin.parent := "C" |}.

Definition stray_pin : Pin.t :=
  {| Pin.index := 0; Pin.id := AInt 1; Pin.label := ANone;
     Pin.color := None; Pin.parent := "D" |}.

Definition sample_harness : Harness :=
  {| connectors := [("C", sample_connector true true)] |}.

(** A connection from the sample pin, via the third wire of [W], to
    nothing. *)
Definition sample_connection : Connection.t :=
  {| Connection.from_ := Some sample_pin;
     Connection.via := sample_wire 2 (Some red_green);
     Connection.to := None |}.

Definition sample_html_padded (m : MultiColor) : string :=
  join ":" (html_padded_list m).

(** A connection whose right pin belongs to a connector the harness does
    not know. *)
Definition stray_connection : Connection.t :=
  {| Connection.from_ := Some sample_pin;
     Connection.via := sample_wire 2 None;
     Connection.to := Some stray_pin |}.

Definition sample_arrow : Arrow := {| direction := FORWARD; weight := DOUBLE |}.

(** Two wires and a shield. *)
Definition sample_shield : Wire.t :=
  {| Wire.index := 2; Wire.id := AStr "s"; Wire.label := None;
     Wire.color := None; Wire.bom_id := ANone; Wire.parent := "W";
     Wire.is_shield := true |}.

Definition sample_wires : list Wire.t :=
  [sample_wire 0 (Some red_green); sample_wire 1 None; sample_shield].

(** An image of fixed size with a caption, and a connector that shows it. *)
Definition sample_image (fixedsize : bool) (caption : Atom) : Image.t :=
  {| Image.src := AStr "plug.png"; Image.scale := ANone;
     Image.width := AInt 40; Image.height := ANone;
     Image.fixedsize := fixedsize; Image.caption := caption;
     Image.bgcolor := {| html := "#FFFFFF" |} |}.

Definition sample_component_with_image (fixedsize : bool) (caption : Atom) : Component :=
  IsConnector
    {| Connector.designator := "X";
       Connector.show_name := true;
       Connector.bgcolor_title := {| html := "#FFFFFF" |};
       Connector.bgcolor := None;
       Connector.partnumbers := mkPartNumberInfo [];
       Connector.bom_id := ANone;
       Connector.type := ANone;
       Connector.subtype := ANone;
       Connector.pincount := 0;
       Connector.show_pincount := false;
       Connector.color := None;
       Connector.image := Some (sample_image fixedsize caption);
       Connector.additional_components := [];
       Connector.notes := ANone;
       Connector.style := ANone;
       Connector.ports_left := true;
       Connector.ports_right := false;
       Connector.pin_objects := [];
       Connector.loops := [] |}.

(** A connector of style [simple] with one pin. *)
Definition sample_simple_connector : Connector.t :=
  {| Connector.designator := "F";
     Connector.show_name := true;
     Connector.bgcolor_title := {| html := "#FFFFFF" |};
     Connector.bgcolor := None;
     Connector.partnumbers := mkPartNumberInfo [];
     Connector.bom_id := ANone;
     Connector.type := AStr "Ferrule";
     Connector.subtype := ANone;
     Connector.pincount := 1;
     Connector.show_pincount := false;
     Connector.color := None;
     Connector.image := None;
     Connector.additional_components := [];
     Connector.notes := ANone;
     Connector.style := AStr "simple";
     Connector.ports_left := false;
     Connector.ports_right := false;
     Connector.pin_objects :=
       [ (AInt 1, {| Pin.index := 0; Pin.id := AInt 1; Pin.label := ANone;
                     Pin.color := None; Pin.parent := "F" |}) ];
     Connector.loops := [] |}.

(** A stand-in for the regular expression engine: the keyword of a line is
    its first word, no assignment is ever found, and the closing bracket
    of a line is replaced by dropping the last character. *)
Fixpoint first_word (s : string) : string :=
  match s with
  | EmptyString => EmptyString
  | String c rest => if Ascii.eqb c " " then EmptyString else String c (first_word rest)
  end.

Fixpoint drop_last (s : string) : string :=
  match s with
  | EmptyString => EmptyString
  | String c EmptyString => EmptyString
  | String c rest => String c (drop_last rest)
  end.

Definition word_match : string -> string -> option (nat -> option string) :=
  fun _ entry => Some (fun _ => Some (first_word entry)).
Definition bracket_sub : string -> string -> string -> result string :=
  fun _ repl entry => Ok (drop_last entry ++ repl).

Definition sample_override_tweak : Tweak :=
  {| override := PDict [ (AStr "Y", PDict [(AStr "size", PStr "2")]) ];
     append := PAtom ANone |}.

(** A table whose [id] is the number 5, alone in its logical row. *)
Definition sample_numbered_table : Tag :=
  Table (Elem (Tr (Elem (Td (Text "GND") [])))) [kw_int "border" 0; kw_int "id" 5].

(** An engine that rejects the patterns built from the attribute name
    [a(b], and a tweak that edits the line [X] and then uses that name on
    the line [Y]. *)
Definition picky_subn : string -> string -> string -> result (string * Z) :=
  fun pattern _ s =>
    if String.prefix "a(b" pattern then Raise (Exception "re.error") else Ok (s, 0).

Definition sample_rejected_tweak : Tweak :=
  {| override := PDict [ (AStr "X", PDict [(AStr "size", PStr "2")]);
                         (AStr "Y", PDict [(AStr "a(b", PStr "1")]) ];
     append := PAtom ANone |}.

(** A connector with two additional components, the second without a
    unit. *)
Definition sample_component_with_subitems : Component :=
  IsConnector
    {| Connector.designator := "X";
       Connector.show_name := true;
       Connector.bgcolor_title := {| html := "#FFFFFF" |};
       Connector.bgcolor := None;
       Connector.partnumbers := mkPartNumberInfo [];
       Connector.bom_id := ANone;
       Connector.type := ANone;
       Connector.subtype := ANone;
       Connector.pincount := 0;
       Connector.show_pincount := false;
       Connector.color := None;
       Connector.image := None;
       Connector.additional_components :=
         [ {| AdditionalComponent.bom_id := AInt 3; AdditionalComponent.bom_qty := AInt 2;
              AdditionalComponent.unit := AStr "m";
              AdditionalComponent.description := AStr "Sleeve" |};
           {| AdditionalComponent.bom_id := ANone; AdditionalComponent.bom_qty := AInt 1;
              AdditionalComponent.unit := ANone;
              AdditionalComponent.description := AStr "Crimp" |} ];
       Connector.notes := ANone;
       Connector.style := ANone;
       Connector.ports_left := true;
       Connector.ports_right := false;
       Connector.pin_objects := [];
       Connector.loops := [] |}.

(** ** Properties of [parse_arrow_str] *)

Lemma getitem_first (c : ascii) (rest : string) :
  getitem (String c rest) 0 = Ok c.
Proof.
  unfold getitem, len. cbn [String.length Z.ltb Z.compare orb].
  replace (Z.of_nat (S (String.length rest)) <=? 0) with false
    by (symmetry; apply Z.leb_gt; lia).
  reflexivity.
Qed.

Lemma get_last (s : string) (z : ascii) :
  last_char s = Some z -> String.get (String.length s - 1) s = Some z.
Proof.
  induction s as [|c rest IH]; [discriminate|].
  destruct rest as [|d rest'].
  - simpl. auto.
  - intros H. change (last_char (String c (String d rest')))
      with (last_char (String d rest')) in H.
    specialize (IH H).
    cbn [String.length] in *.
    replace (S (S (String.length rest')) - 1)%nat
      with (S (S (String.length rest') - 1))%nat by lia.
    exact IH.
Qed.

Lemma getitem_last (s : string) (z : ascii) :
  last_char s = Some z -> getitem s (-1) = Ok z.
Proof.
  intros H. unfold getitem, len.
  assert (Hlen : (0 < String.length s)%nat).
  { destruct s; [discriminate | simpl; lia]. }
  change (-1 <? 0) with true. cbv iota.
  replace (-1 + Z.of_nat (String.length s) <? 0) with false
    by (symmetry; apply Z.ltb_ge; lia).
  replace (Z.of_nat (String.length s) <=? -1 + Z.of_nat (String.length s))
    with false by (symmetry; apply Z.leb_gt; lia).
  cbn [orb].
  replace (Z.to_nat (-1 + Z.of_nat (String.length s)))
    with (String.length s - 1)%nat by lia.
  rewrite (get_last s H). reflexivity.
Qed.

Lemma last_char_nonempty (c : ascii) (rest : string) :
  exists z, last_char (String c rest) = Some z.
Proof.
  revert c. induction rest as [|d rest IH]; intros c.
  - exists c. reflexivity.
  - destruct (IH d) as [z Hz]. exists z. exact Hz.
Qed.

Lemma parse_arrow_str_ends (inp : string) (a z : ascii) :
  first_char inp = Some a -> last_char inp = Some z ->
  parse_arrow_str inp
  = Ok (direction_of (Ascii.eqb a lt_sign) (Ascii.eqb z gt_sign)).
Proof.
  intros Ha Hz. destruct inp as [|c rest]; [discriminate|].
  injection Ha as ->.
  unfold parse_arrow_str.
  rewrite getitem_first. cbn [bind].
  rewrite (getitem_last _ Hz).
  destruct (Ascii.eqb a lt_sign) eqn:Ea, (Ascii.eqb z gt_sign) eqn:Ez;
    cbn [bind]; rewrite ?Ea, ?Ez; reflexivity.
Qed.

(** C8: for every non-empty marker, [parse_arrow_str] returns BOTH when the
    first character is [<] and the last is [>], BACK when only the first is
    [<], FORWARD when only the last is [>], NONE otherwise; the markers
    [<>], [<-], [->] and [-] give both, back, forward and none. *)
Theorem parse_arrow_str_by_ends (inp : string) (Hne : inp <> EmptyString) :
  (exists a z,
      first_char inp = Some a /\ last_char inp = Some z /\
      parse_arrow_str inp
      = Ok (if Ascii.eqb a "<"
            then if Ascii.eqb z ">" then BOTH else BACK
            else if Ascii.eqb z ">" then FORWARD else NONE))
  /\ parse_arrow_str "<>" = Ok BOTH
  /\ parse_arrow_str "<-" = Ok BACK
  /\ parse_arrow_str "->" = Ok FORWARD
  /\ parse_arrow_str "-" = Ok NONE.
Proof.
  split; [|repeat split; reflexivity].
  destruct inp as [|c rest]; [contradiction|].
  destruct (last_char_nonempty c rest) as [z Hz].
  exists c, z. repeat split; auto.
  rewrite (parse_arrow_str_ends (String c rest) (a := c) eq_refl Hz).
  unfold lt_sign, gt_sign.
  destruct (Ascii.eqb c "<"), (Ascii.eqb z ">"); reflexivity.
Qed.

Lemma parse_arrow_str_by_ends_witness :
  "<--" <> EmptyString
  /\ exists a z,
      first_char "<--" = Some a /\ last_char "<--" = Some z /\
      parse_arrow_str "<--"
      = Ok (if Ascii.eqb a "<"
            then if Ascii.eqb z ">" then BOTH else BACK
            else if Ascii.eqb z ">" then FORWARD else NONE).
Proof.
  assert (H : "<--" <> EmptyString) by discriminate.
  split; [exact H | exact (proj1 (parse_arrow_str_by_ends H))].
Defined.

(** C9: [parse_arrow_str] fails on the empty text, where it indexes the
    first character, and returns a direction exactly on the non-empty
    texts. *)
Theorem parse_arrow_str_defined_iff_nonempty :
  parse_arrow_str EmptyString = Raise IndexError
  /\ forall inp : string,
      (exists d, parse_arrow_str inp = Ok d) <-> inp <> EmptyString.
Proof.
  split; [reflexivity|].
  intros inp. split.
  - intros [d Hd] ->. discriminate Hd.
  - intros Hne. destruct inp as [|c rest]; [contradiction|].
    destruct (last_char_nonempty c rest) as [z Hz].
    eexists. apply (parse_arrow_str_ends (String c rest) (a := c) eq_refl Hz).
Qed.

(** ** Loops that append to a list *)

Lemma fold_left_append {A B} (f : A -> B) (l : list A) (acc : list B) :
  fold_left (fun acc x => (acc ++ [f x])%list) l acc = (acc ++ map f l)%list.
Proof.
  revert acc. induction l as [|x l IH]; intros acc; simpl.
  - now rewrite app_nil_r.
  - rewrite IH, <- app_assoc. reflexivity.
Qed.

(** ** Properties of [gv_connector_loops] *)

Lemma gv_connector_loops_left (connector : Connector.t) :
  Connector.ports_left connector = true ->
  gv_connector_loops connector = Ok (loop_edges_on "l" "w" connector).
Proof.
  intros HL. unfold gv_connector_loops, loop_edges_on, loop_endpoint.
  rewrite HL. cbn [bind fst snd].
  rewrite (fold_left_append
             (fun loop =>
                (Connector.designator connector ++ ":p" ++ str_int (fst loop)
                 ++ "l" ++ ":" ++ "w",
                 Connector.designator connector ++ ":p" ++ str_int (snd loop)
                 ++ "l" ++ ":" ++ "w"))).
  reflexivity.
Qed.

Lemma gv_connector_loops_right_only (connector : Connector.t) :
  Connector.ports_left connector = false ->
  Connector.ports_right connector = true ->
  gv_connector_loops connector = Ok (loop_edges_on "r" "e" connector).
Proof.
  intros HL HR. unfold gv_connector_loops, loop_edges_on, loop_endpoint.
  rewrite HL, HR. cbn [bind fst snd].
  rewrite (fold_left_append
             (fun loop =>
                (Connector.designator connector ++ ":p" ++ str_int (fst loop)
                 ++ "r" ++ ":" ++ "e",
                 Connector.designator connector ++ ":p" ++ str_int (snd loop)
                 ++ "r" ++ ":" ++ "e"))).
  reflexivity.
Qed.

Lemma gv_connector_loops_no_side (connector : Connector.t) :
  Connector.ports_left connector = false ->
  Connector.ports_right connector = false ->
  gv_connector_loops connector = Raise (Exception "No side for loops").
Proof.
  intros HL HR. unfold gv_connector_loops. rewrite HL, HR. reflexivity.
Qed.

(** C3: [gv_connector_loops] raises exactly when the connector has neither
    side configured; on a left-sided connector each loop pair gives one
    edge between the west points of the left ports of its two pins, so the
    loop [[1, 2]] on [C] gives the one edge from [C:p1l:w] to [C:p2l:w]. *)
Theorem gv_connector_loops_raises_iff_no_side :
  (forall connector : Connector.t,
      (exists e, gv_connector_loops connector = Raise e)
      <-> (Connector.ports_left connector = false
           /\ Connector.ports_right connector = false))
  /\ (forall connector : Connector.t,
         Connector.ports_left connector = true ->
         gv_connector_loops connector
         = Ok (map (fun loop =>
                      (loop_endpoint (Connector.designator connector) (fst loop) "l" "w",
                       loop_endpoint (Connector.designator connector) (snd loop) "l" "w"))
                   (Connector.loops connector)))
  /\ (forall connector : Connector.t,
         Connector.ports_left connector = true ->
         Connector.designator connector = "C" ->
         Connector.loops connector = [(1, 2)] ->
         gv_connector_loops connector = Ok [("C:p1l:w", "C:p2l:w")])
  /\ gv_connector_loops (sample_connector true false) = Ok [("C:p1l:w", "C:p2l:w")]
  /\ gv_connector_loops (sample_connector false false)
     = Raise (Exception "No side for loops").
Proof.
  split; [|split; [|split; [|split]]]; try reflexivity.
  - intros connector. split.
    + intros [e He].
      destruct (Connector.ports_left connector) eqn:HL.
      * rewrite (gv_connector_loops_left _ HL) in He. discriminate.
      * destruct (Connector.ports_right connector) eqn:HR; [|auto].
        rewrite (gv_connector_loops_right_only _ HL HR) in He. discriminate.
    + intros [HL HR]. eexists. apply gv_connector_loops_no_side; assumption.
  - intros connector HL. apply gv_connector_loops_left, HL.
  - intros connector HL HD HLoops.
    rewrite (gv_connector_loops_left _ HL).
    unfold loop_edges_on. rewrite HD, HLoops. reflexivity.
Qed.

Lemma last_char_app (s t : string) :
  t <> EmptyString -> last_char (s ++ t) = last_char t.
Proof.
  intros Ht. induction s as [|c s IH]; [reflexivity|].
  cbn [String.append]. destruct (s ++ t) as [|d u] eqn:E.
  - destruct s; cbn [String.append] in E; [contradiction | discriminate].
  - exact IH.
Qed.

Lemma loop_endpoint_last (designator : string) (pin : Z) (side : string) (c : ascii) :
  last_char (loop_endpoint designator pin side (String c EmptyString)) = Some c.
Proof.
  unfold loop_endpoint.
  rewrite last_char_app by discriminate.
  change (":p" ++ str_int pin ++ side ++ ":" ++ String c EmptyString)
    with (String ":" (String "p" (str_int pin ++ side ++ ":" ++ String c EmptyString))).
  assert (H : last_char (str_int pin ++ side ++ ":" ++ String c EmptyString) = Some c).
  { rewrite last_char_app by (destruct side; discriminate).
    rewrite last_char_app by discriminate. reflexivity. }
  destruct (str_int pin ++ side ++ ":" ++ String c EmptyString) eqn:E;
    [discriminate H | exact H].
Qed.

(** C10: when both sides are configured the loops take the left side:
    every loop edge joins the west points ([w]) of left ports ([l]), and
    none is an edge the right side ([r], [e]) would give. *)
Theorem gv_connector_loops_prefers_left (connector : Connector.t)
  (HL : Connector.ports_left connector = true)
  (HR : Connector.ports_right connector = true) :
  gv_connector_loops connector = Ok (loop_edges_on "l" "w" connector)
  /\ forall edges edge,
       gv_connector_loops connector = Ok edges -> In edge edges ->
       (exists a b,
           In (a, b) (Connector.loops connector)
           /\ edge = (loop_endpoint (Connector.designator connector) a "l" "w",
                      loop_endpoint (Connector.designator connector) b "l" "w"))
       /\ ~ In edge (loop_edges_on "r" "e" connector).
Proof.
  split; [apply gv_connector_loops_left, HL|].
  intros edges edge Hrun Hin.
  rewrite (gv_connector_loops_left _ HL) in Hrun. injection Hrun as <-.
  unfold loop_edges_on in Hin. apply in_map_iff in Hin.
  destruct Hin as [[a b] [Hedge Hloop]]. cbn [fst snd] in Hedge.
  split.
  - exists a, b. split; [exact Hloop | symmetry; exact Hedge].
  - intros Hright. unfold loop_edges_on in Hright. apply in_map_iff in Hright.
    destruct Hright as [[a' b'] [Hedge' _]]. cbn [fst snd] in Hedge'.
    rewrite <- Hedge in Hedge'. injection Hedge' as Hhead _.
    apply (f_equal last_char) in Hhead.
    rewrite !loop_endpoint_last in Hhead. discriminate Hhead.
Qed.

Lemma gv_connector_loops_prefers_left_witness :
  Connector.ports_left (sample_connector true true) = true
  /\ Connector.ports_right (sample_connector true true) = true
  /\ gv_connector_loops (sample_connector true true)
     = Ok [("C:p1l:w", "C:p2l:w")].
Proof.
  split; [reflexivity | split; [reflexivity|]].
  exact (proj1 (gv_connector_loops_prefers_left
                  (sample_connector true true) eq_refl eq_refl)).
Defined.

(** ** Properties of [gv_pin_row] *)

(** C4: the row of a pin has five cells; the first is the pin-id cell
    tagged [p<index+1>l] when the connector has left ports and is absent
    otherwise, the last is the pin-id cell tagged [p<index+1>r] when it has
    right ports and is absent otherwise, and no cell in between carries a
    port; the pin of index 1 of a connector with both sides gets [p2l] and
    [p2r]. *)
Theorem gv_pin_row_ports (ext : Externals) (pin : Pin.t) (connector : Connector.t) :
  List.length (row_cells (gv_pin_row ext pin connector)) = 5%nat
  /\ nth_error (row_cells (gv_pin_row ext pin connector)) 0
     = Some (if Connector.ports_left connector then pin_id_cell pin "l" else None_)
  /\ nth_error (row_cells (gv_pin_row ext pin connector)) 4
     = Some (if Connector.ports_right connector then pin_id_cell pin "r" else None_)
  /\ (forall i cell,
         (0 < i < 4)%nat ->
         nth_error (row_cells (gv_pin_row ext pin connector)) i = Some cell ->
         port_of cell = ANone)
  /\ port_of (pin_id_cell pin "l") = AStr ("p" ++ str_int (Pin.index pin + 1) ++ "l")
  /\ port_of (pin_id_cell pin "r") = AStr ("p" ++ str_int (Pin.index pin + 1) ++ "r")
  /\ (Pin.index pin = 1 ->
      Connector.ports_left connector = true ->
      Connector.ports_right connector = true ->
      map port_of (row_cells (gv_pin_row ext pin connector))
      = [AStr "p2l"; ANone; ANone; ANone; AStr "p2r"]).
Proof.
  repeat split.
  - intros i cell Hi Hcell.
    destruct i as [|[|[|[|i]]]]; try lia; cbn in Hcell;
      injection Hcell as <-;
      repeat match goal with |- context [if ?b then _ else _] => destruct b end;
      reflexivity.
  - intros Hidx HL HR. unfold gv_pin_row, row_cells. cbn [contents Tr].
    rewrite HL, HR, Hidx. cbn [map]. f_equal.
    do 2 f_equal;
      repeat match goal with |- context [if ?b then _ else _] => destruct b end;
      reflexivity.
Qed.

Lemma gv_pin_row_ports_witness :
  map port_of
      (row_cells (gv_pin_row sample_externals
                             {| Pin.index := 1; Pin.id := AInt 2; Pin.label := AStr "VCC";
                                Pin.color := None; Pin.parent := "C" |}
                             (sample_connector true true)))
  = [AStr "p2l"; ANone; ANone; ANone; AStr "p2r"].
Proof.
  exact (proj2 (proj2 (proj2 (proj2 (proj2 (proj2
           (gv_pin_row_ports sample_externals
              {| Pin.index := 1; Pin.id := AInt 2; Pin.label := AStr "VCC";
                 Pin.color := None; Pin.parent := "C" |}
              (sample_connector true true)))))))
           eq_refl eq_refl eq_refl).
Defined.

(** ** Properties of [gv_wire_cell] *)

Lemma stripe_bands_gv_wire_cell (wire : Wire.t) (colspan : Z) (color_list : list string) :
  color_list
  = match Wire.color wire with
    | Some m =>
        if has_color (Some m) then ([black] ++ html_padded_list m ++ [black])%list
        else [black]
    | None => [black]
    end ->
  stripe_bands (gv_wire_cell wire colspan) = map band_fill (rev color_list).
Proof.
  intros ->. unfold gv_wire_cell, stripe_bands.
  cbn [contents Td Table row_cells].
  rewrite (fold_left_append
             (fun bgcolor =>
                Elem (Tr (Elem (Td (Text EmptyString)
                  [kw_str "bgcolor" (if String.eqb bgcolor EmptyString then black else bgcolor);
                   kw_int "border" 0; kw_int "cellpadding" 0;
                   kw_int "colspan" colspan; kw_int "height" 2]))))).
  cbn [app]. rewrite map_map. apply map_ext. intros bgcolor. reflexivity.
Qed.

(** C1, as the code has it: the stripe cell is tagged [w<index+1>]; a
    colorless wire gets the single band black; a colored wire gets black,
    the sub-colors of [html_padded_list] from the last to the first, and
    black, so that the sub-colors [A, B] give the four bands black, B, A,
    black from top to bottom; black stands in for an empty sub-color. *)
Theorem gv_wire_cell_stripe (wire : Wire.t) (colspan : Z) :
  attr_get "port" ANone (attribs (gv_wire_cell wire colspan))
  = AStr ("w" ++ str_int (Wire.index wire + 1))
  /\ (has_color (Wire.color wire) = false ->
      stripe_bands (gv_wire_cell wire colspan) = [AStr black])
  /\ (forall m,
         Wire.color wire = Some m -> has_color (Some m) = true ->
         stripe_bands (gv_wire_cell wire colspan)
         = (AStr black :: map band_fill (rev (html_padded_list m)) ++ [AStr black])%list)
  /\ (forall m A B,
         Wire.color wire = Some m -> has_color (Some m) = true ->
         html_padded_list m = [A; B] ->
         stripe_bands (gv_wire_cell wire colspan)
         = [AStr black; band_fill B; band_fill A; AStr black]).
Proof.
  split; [reflexivity|].
  assert (Hcolored : forall m,
             Wire.color wire = Some m -> has_color (Some m) = true ->
             stripe_bands (gv_wire_cell wire colspan)
             = (AStr black :: map band_fill (rev (html_padded_list m)) ++ [AStr black])%list).
  { intros m Hm Hc.
    rewrite (stripe_bands_gv_wire_cell wire colspan eq_refl), Hm, Hc.
    change (rev ([black] ++ html_padded_list m ++ [black]))
      with (rev (html_padded_list m ++ [black]) ++ [black])%list.
    rewrite rev_app_distr, map_app. reflexivity. }
  split; [|split; [exact Hcolored|]].
  - intros Hno.
    rewrite (stripe_bands_gv_wire_cell wire colspan eq_refl).
    destruct (Wire.color wire) as [m|]; [rewrite Hno|]; reflexivity.
  - intros m A B Hm Hc Hlist. rewrite (Hcolored m Hm Hc), Hlist. reflexivity.
Qed.

Lemma gv_wire_cell_stripe_witness :
  stripe_bands (gv_wire_cell (sample_wire 0 (Some red_green)) 3)
  = [AStr black; AStr green; AStr red; AStr black]
  /\ stripe_bands (gv_wire_cell (sample_wire 4 None) 3) = [AStr black]
  /\ attr_get "port" ANone (attribs (gv_wire_cell (sample_wire 4 None) 3)) = AStr "w5".
Proof.
  split; [|split].
  - exact (proj2 (proj2 (proj2 (gv_wire_cell_stripe (sample_wire 0 (Some red_green)) 3)))
             red_green red green eq_refl eq_refl eq_refl).
  - exact (proj1 (proj2 (gv_wire_cell_stripe (sample_wire 4 None) 3)) eq_refl).
  - exact (proj1 (gv_wire_cell_stripe (sample_wire 4 None) 3)).
Defined.

(** C1, as stated, fails: for the sub-colors [A, B] = red, green the bands
    are black, green, red, black, not black, red, green, black. *)
Lemma gv_wire_cell_bands_are_reversed :
  html_padded_list red_green = [red; green]
  /\ stripe_bands (gv_wire_cell (sample_wire 0 (Some red_green)) 3)
     = [AStr black; AStr green; AStr red; AStr black]
  /\ stripe_bands (gv_wire_cell (sample_wire 0 (Some red_green)) 3)
     <> [AStr black; AStr red; AStr green; AStr black].
Proof.
  split; [reflexivity | split; [reflexivity | discriminate]].
Qed.

(** ** Properties of [nested_table] *)

Lemma is_unmarked_table_lone (c : Tag) (t : Tag) :
  lone_table [c] = Some t -> id_is_text t = true ->
  is_unmarked_table (contents c) = Ok (negb (force_wrap t)) /\ contents c = Elem t.
Proof.
  unfold lone_table, is_unmarked_table, id_is_text, force_wrap, bang_in.
  destruct (contents c) as [a|t'|l]; try discriminate.
  destruct (kind_eqb (kind t') KTable); [|discriminate].
  intros [= ->]. destruct (attr_get "id" (AStr EmptyString) (attribs t));
    try discriminate.
  intros _. split; reflexivity.
Qed.

Lemma is_unmarked_table_not_lone (c : Tag) :
  lone_table [c] = None -> is_unmarked_table (contents c) = Ok false.
Proof.
  unfold lone_table, is_unmarked_table.
  destruct (contents c) as [a|t'|l]; try reflexivity.
  destruct (kind_eqb (kind t') KTable); [discriminate | reflexivity].
Qed.

(** One round of the loop adds the row of the logical row, if it has one. *)
Lemma nested_table_rows_step (line : Node) (rest : list (list Tag)) (rows : list Node) :
  well_typed_line line = true ->
  nested_table_rows (make_list_of_cells line :: rest) rows
  = nested_table_rows rest
      (rows ++ match row_content line with
               | Some c => [row_around c]
               | None => []
               end)%list.
Proof.
  intros Hty. unfold well_typed_line in Hty. unfold row_content.
  cbn [nested_table_rows]. fold (surviving_cells line).
  destruct (make_list_of_cells line) as [|c0 l0] eqn:Hcells.
  - unfold surviving_cells. rewrite Hcells. cbn. now rewrite app_nil_r.
  - cbn [List.length Nat.eqb].
    destruct (surviving_cells line) as [|c [|c' cells]] eqn:Hs.
    + cbn. now rewrite app_nil_r.
    + cbn [List.length Nat.eqb].
      destruct (lone_table [c]) as [t|] eqn:Hlone.
      * destruct (is_unmarked_table_lone c Hlone Hty) as [-> Hc].
        cbn [bind]. destruct (force_wrap t); cbn [negb]; [reflexivity|].
        rewrite Hc. reflexivity.
      * rewrite (is_unmarked_table_not_lone c Hlone). reflexivity.
    + reflexivity.
Qed.

Lemma nested_table_rows_spec (lines : list Node) (rows : list Node) :
  forallb well_typed_line lines = true ->
  nested_table_rows (map make_list_of_cells lines) rows
  = Ok (rows ++ map row_around (row_contents lines))%list.
Proof.
  revert rows. induction lines as [|line lines IH]; intros rows Hty.
  - cbn. now rewrite app_nil_r.
  - cbn [forallb] in Hty. apply andb_prop in Hty. destruct Hty as [H1 H2].
    cbn [map]. rewrite (nested_table_rows_step line _ rows H1), (IH _ H2).
    unfold row_contents. cbn [flat_map]. rewrite map_app, <- app_assoc.
    destruct (row_content line); reflexivity.
Qed.

Lemma nested_table_spec (lines : list Node) :
  forallb well_typed_line lines = true ->
  nested_table lines
  = Ok (outer_table (match row_contents lines with
                     | [] => Elem empty_row
                     | contents => Items (map row_around contents)
                     end)).
Proof.
  intros Hty. unfold nested_table.
  rewrite (nested_table_rows_spec lines [] Hty). cbn [bind app].
  destruct (row_contents lines); reflexivity.
Qed.

(** C5, as the code has it: for logical rows in which a table that is
    alone in its row has a text for [id], if it has an [id],
    [nested_table] gives one row per logical row that keeps a cell; when
    the surviving cells are exactly one cell whose content is a table not
    marked for forced wrapping, the content of the row is that very table,
    with no level in between; otherwise the surviving cells are wrapped in
    a bordered sub-table. *)
Theorem nested_table_rows_by_line (lines : list Node)
  (Hty : forallb well_typed_line lines = true) :
  nested_table lines
  = Ok (outer_table (match row_contents lines with
                     | [] => Elem empty_row
                     | contents => Items (map row_around contents)
                     end))
  /\ (forall line c t,
         surviving_cells line = [c] -> contents c = Elem t ->
         kind t = KTable -> force_wrap t = false ->
         row_content line = Some (Elem t))
  /\ (forall line,
         surviving_cells line <> [] ->
         (forall c t, surviving_cells line = [c] -> contents c = Elem t ->
                      kind t = KTable -> force_wrap t = true) ->
         row_content line
         = Some (Elem (Table (Elem (Tr (Items (map Elem (surviving_cells line)))))
                             [kw_int "border" 0; kw_int "cellborder" 1;
                              kw_int "cellpadding" 3; kw_int "cellspacing" 0]))).
Proof.
  split; [exact (nested_table_spec lines Hty)|]. split.
  - intros line c t Hs Hc Hk Hw. unfold row_content, lone_table.
    rewrite Hs, Hc, Hk. cbn [kind_eqb]. rewrite Hw. reflexivity.
  - intros line Hne Hmarked. unfold row_content.
    destruct (lone_table (surviving_cells line)) as [t|] eqn:Hlone.
    + unfold lone_table in Hlone.
      destruct (surviving_cells line) as [|c [|c' cells]] eqn:Hs; try discriminate.
      destruct (contents c) as [a|t'|l] eqn:Hc; try discriminate.
      destruct (kind_eqb (kind t') KTable) eqn:Hk; [|discriminate].
      injection Hlone as ->.
      assert (Hkind : kind t = KTable) by (destruct (kind t); discriminate || reflexivity).
      rewrite (Hmarked c t eq_refl Hc Hkind). reflexivity.
    + destruct (surviving_cells line); [contradiction | reflexivity].
Qed.

Lemma nested_table_rows_by_line_witness :
  forallb well_typed_line sample_lines = true
  /\ nested_table sample_lines
     = Ok (outer_table
             (Items [ row_around (Elem sample_table);
                      row_around (bordered_subtable
                                    [Td (Text "Molex") []; Td (Text "3-pin") []]);
                      row_around (bordered_subtable
                                    [Td (Elem sample_marked_table) []]) ])).
Proof.
  split; [reflexivity|].
  exact (proj1 (nested_table_rows_by_line sample_lines eq_refl)).
Defined.

(** C6: when every logical row collapses (no candidate of any row
    survives), [nested_table] returns the table with exactly one row that
    holds exactly one empty cell, not a table without rows. *)
Theorem nested_table_all_rows_collapse (lines : list Node)
  (Hempty : forall line, In line lines -> surviving_cells line = []) :
  nested_table lines
  = Ok (Table (Elem (Tr (Elem (Td (Text EmptyString) []))))
              [kw_int "border" 0; kw_int "cellspacing" 0; kw_int "cellpadding" 0])
  /\ exists tbl,
       nested_table lines = Ok tbl
       /\ row_cells tbl = [Elem empty_row]
       /\ row_cells empty_row = [Elem (Td (Text EmptyString) [])].
Proof.
  assert (Hty : forallb well_typed_line lines = true).
  { apply forallb_forall. intros line Hin. unfold well_typed_line.
    rewrite (Hempty line Hin). reflexivity. }
  assert (Hnone : row_contents lines = []).
  { unfold row_contents. induction lines as [|line lines IH]; [reflexivity|].
    cbn [flat_map]. unfold row_content at 1.
    rewrite (Hempty line (or_introl eq_refl)). cbn [lone_table app].
    apply IH.
    - intros l Hl. apply Hempty. right. exact Hl.
    - cbn [forallb] in Hty. apply andb_prop in Hty. apply Hty. }
  rewrite (nested_table_spec lines Hty), Hnone.
  split; [reflexivity|]. eexists. split; [reflexivity|]. split; reflexivity.
Qed.

Lemma nested_table_all_rows_collapse_witness :
  (forall line, In line sample_empty_lines -> surviving_cells line = [])
  /\ nested_table sample_empty_lines
     = Ok (Table (Elem (Tr (Elem (Td (Text EmptyString) []))))
                 [kw_int "border" 0; kw_int "cellspacing" 0; kw_int "cellpadding" 0]).
Proof.
  assert (H : forall line, In line sample_empty_lines -> surviving_cells line = []).
  { intros line Hin. cbn in Hin.
    repeat (destruct Hin as [<-|Hin]; [reflexivity|]). contradiction. }
  split; [exact H | exact (proj1 (nested_table_all_rows_collapse sample_empty_lines H))].
Defined.

(** The hypothesis of the characterisation of [nested_table] is needed: a
    lone table whose [id] is not a text makes the search for [!] fail. *)
Lemma nested_table_rows_ill_typed (line : Node) (rest : list (list Tag))
  (rows : list Node) :
  well_typed_line line = false ->
  nested_table_rows (make_list_of_cells line :: rest) rows = Raise TypeError.
Proof.
  unfold well_typed_line. intros Hty.
  destruct (lone_table (surviving_cells line)) as [t|] eqn:Hlone; [|discriminate].
  cbn [nested_table_rows]. fold (surviving_cells line).
  destruct (surviving_cells line) as [|c [|c' cells]] eqn:Hs; try discriminate.
  assert (Hne : make_list_of_cells line <> []).
  { intros E. unfold surviving_cells in Hs. rewrite E in Hs. discriminate. }
  destruct (make_list_of_cells line) as [|c0 l0]; [contradiction|].
  cbn [List.length Nat.eqb].
  unfold lone_table in Hlone. unfold is_unmarked_table.
  destruct (contents c) as [a|t'|l]; try discriminate.
  destruct (kind_eqb (kind t') KTable); [|discriminate].
  injection Hlone as ->. unfold id_is_text in Hty. unfold bang_in.
  destruct (attr_get "id" (AStr EmptyString) (attribs t)); [|discriminate|]; reflexivity.
Qed.

Lemma nested_table_ill_typed (lines : list Node) :
  forallb well_typed_line lines = false -> nested_table lines = Raise TypeError.
Proof.
  intros Hty. unfold nested_table.
  enough (H : forall rows,
             nested_table_rows (map make_list_of_cells lines) rows = Raise TypeError)
    by (rewrite H; reflexivity).
  induction lines as [|line lines IH]; intros rows; [discriminate|].
  cbn [forallb] in Hty. cbn [map].
  destruct (well_typed_line line) eqn:H1.
  - rewrite (nested_table_rows_step line _ rows H1). apply IH. exact Hty.
  - apply nested_table_rows_ill_typed. exact H1.
Qed.

(** C5, as stated, fails: a logical row whose only cell holds a table with
    the number 5 for [id] reduces to one cell whose content is a table
    without the mark [!], and [nested_table] raises instead of taking the
    table as the content of the row. *)
Lemma nested_table_lone_table_id_not_text :
  surviving_cells (Elem sample_numbered_table) = [Td (Elem sample_numbered_table) []]
  /\ kind sample_numbered_table = KTable
  /\ attr_get "id" (AStr EmptyString) (attribs sample_numbered_table) = AInt 5
  /\ force_wrap sample_numbered_table = false
  /\ nested_table [Elem sample_numbered_table] = Raise TypeError
  /\ nested_table [Elem sample_numbered_table]
     <> Ok (outer_table (Items [row_around (Elem sample_numbered_table)])).
Proof.
  repeat split. discriminate.
Qed.

(** ** Properties of [gv_node_component] *)

(** C2, as the code has it: rendering leaves a cable and a connector with
    a side configured as they were; of a connector with neither side
    configured it sets [ports_left] to true and leaves every other field
    as it was. *)
Theorem gv_node_component_frame (ext : Externals) (component : Component) :
  (forall c, component = IsCable c ->
             fst (gv_node_component ext component) = component)
  /\ (forall c, component = IsConnector c ->
                Connector.ports_left c || Connector.ports_right c = true ->
                fst (gv_node_component ext component) = component)
  /\ (forall c, component = IsConnector c ->
                Connector.ports_left c = false ->
                Connector.ports_right c = false ->
                exists c',
                  fst (gv_node_component ext component) = IsConnector c'
                  /\ Connector.ports_left c' = true
                  /\ Connector.ports_right c' = Connector.ports_right c
                  /\ Connector.designator c' = Connector.designator c
                  /\ Connector.show_name c' = Connector.show_name c
                  /\ Connector.bgcolor_title c' = Connector.bgcolor_title c
                  /\ Connector.bgcolor c' = Connector.bgcolor c
                  /\ Connector.partnumbers c' = Connector.partnumbers c
                  /\ Connector.bom_id c' = Connector.bom_id c
                  /\ Connector.type c' = Connector.type c
                  /\ Connector.subtype c' = Connector.subtype c
                  /\ Connector.pincount c' = Connector.pincount c
                  /\ Connector.show_pincount c' = Connector.show_pincount c
                  /\ Connector.color c' = Connector.color c
                  /\ Connector.image c' = Connector.image c
                  /\ Connector.additional_components c'
                     = Connector.additional_components c
                  /\ Connector.notes c' = Connector.notes c
                  /\ Connector.style c' = Connector.style c
                  /\ Connector.pin_objects c' = Connector.pin_objects c
                  /\ Connector.loops c' = Connector.loops c).
Proof.
  split; [|split].
  - intros c ->. reflexivity.
  - intros c -> Hside. unfold gv_node_component. cbn [fst default_side].
    rewrite Hside. reflexivity.
  - intros c -> HL HR. exists (Connector.set_ports_left true c).
    unfold gv_node_component. cbn [fst default_side]. rewrite HL, HR.
    cbn [orb negb]. repeat split. exact HR.
Qed.

Lemma gv_node_component_frame_witness :
  fst (gv_node_component sample_externals (IsConnector (sample_connector false true)))
  = IsConnector (sample_connector false true)
  /\ exists c',
       fst (gv_node_component sample_externals (IsConnector (sample_connector false false)))
       = IsConnector c'
       /\ Connector.ports_left c' = true
       /\ Connector.ports_right c' = false.
Proof.
  split.
  - exact (proj1 (proj2 (gv_node_component_frame sample_externals
                           (IsConnector (sample_connector false true))))
             (sample_connector false true) eq_refl eq_refl).
  - destruct (proj2 (proj2 (gv_node_component_frame sample_externals
                              (IsConnector (sample_connector false false))))
                (sample_connector false false) eq_refl eq_refl eq_refl)
      as [c' [H1 [H2 [H3 _]]]].
    exists c'. split; [exact H1 | split; [exact H2 | exact H3]].
Defined.

(** C2, as stated, fails: the call on a connector with neither side
    configured returns a table and leaves the connector with [ports_left]
    set. *)
Lemma gv_node_component_sets_ports_left :
  Connector.ports_left (sample_connector false false) = false
  /\ raises (snd (gv_node_component sample_externals
                    (IsConnector (sample_connector false false)))) = false
  /\ fst (gv_node_component sample_externals
            (IsConnector (sample_connector false false)))
     = IsConnector (sample_connector true false)
  /\ fst (gv_node_component sample_externals
            (IsConnector (sample_connector false false)))
     <> IsConnector (sample_connector false false).
Proof.
  split; [reflexivity|]. split; [vm_compute; reflexivity|].
  split; [reflexivity|]. cbn. discriminate.
Qed.

(** ** Properties of [apply_dot_tweaks] *)

Lemma typecheck_run (name : string) (value : PyVal) (expect : PyVal -> bool) (d : Dot) :
  typecheck name value expect d
  = (d, if expect value then Ok tt
        else Raise (Exception ("Unexpected value type of " ++ name))).
Proof.
  unfold typecheck. destruct (expect value); reflexivity.
Qed.

(** A loop of checks that leave the document alone raises, leaving the
    document alone, as soon as one element is bad. *)
Lemma for_each_raises {A} (f : A -> M unit) (bad : A -> bool) (l : list A) :
  (forall x d, exists r, f x d = (d, r)) ->
  (forall x d, bad x = true -> exists e, f x d = (d, Raise e)) ->
  existsb bad l = true ->
  forall d, exists e, for_each f l d = (d, Raise e).
Proof.
  intros Hpure Hbad. induction l as [|x l IH]; intros Hex d; [discriminate|].
  cbn [for_each]. unfold bindM.
  destruct (Hpure x d) as [r Hr]. rewrite Hr.
  destruct r as [[]|e]; [|exists e; reflexivity].
  cbn [existsb] in Hex. apply orb_prop in Hex. destruct Hex as [Hx|Hl].
  - destruct (Hbad x d Hx) as [e He]. rewrite He in Hr. discriminate.
  - apply (IH Hl).
Qed.

Lemma for_each_pure {A} (f : A -> M unit) (l : list A) :
  (forall x d, exists r, f x d = (d, r)) ->
  forall d, exists r, for_each f l d = (d, r).
Proof.
  intros Hpure. induction l as [|x l IH]; intros d.
  - eexists. reflexivity.
  - cbn [for_each]. unfold bindM. destruct (Hpure x d) as [r ->].
    destruct r as [[]|e]; [apply IH | eexists; reflexivity].
Qed.

Lemma check_attr_edit_pure (k : Atom) (av : Atom * PyVal) (d : Dot) :
  exists r, check_attr_edit k av d = (d, r).
Proof.
  unfold check_attr_edit, bindM. rewrite typecheck_run.
  destruct (is_str (PAtom (fst av))); [|eexists; reflexivity].
  rewrite typecheck_run. eexists. reflexivity.
Qed.

Lemma check_attr_edit_raises (k : Atom) (av : Atom * PyVal) (d : Dot) :
  malformed_attr_edit av = true -> exists e, check_attr_edit k av d = (d, Raise e).
Proof.
  unfold malformed_attr_edit, check_attr_edit, bindM. intros Hbad.
  rewrite typecheck_run.
  destruct (is_str (PAtom (fst av))); [|eexists; reflexivity].
  rewrite typecheck_run. cbn [negb orb] in Hbad.
  destruct (is_str_or_none (snd av)); [discriminate | eexists; reflexivity].
Qed.

Lemma check_keyword_edit_pure (kd : Atom * PyVal) (d : Dot) :
  exists r, check_keyword_edit kd d = (d, r).
Proof.
  unfold check_keyword_edit, bindM. rewrite typecheck_run.
  destruct (is_str (PAtom (fst kd))); [|eexists; reflexivity].
  rewrite typecheck_run.
  destruct (snd kd) as [a|l|attrs]; cbn [is_dict]; try (eexists; reflexivity).
  apply for_each_pure. intros x d'. apply check_attr_edit_pure.
Qed.

Lemma check_keyword_edit_raises (kd : Atom * PyVal) (d : Dot) :
  malformed_keyword_edit kd = true ->
  exists e, check_keyword_edit kd d = (d, Raise e).
Proof.
  unfold malformed_keyword_edit, check_keyword_edit, bindM. intros Hbad.
  rewrite typecheck_run.
  destruct (is_str (PAtom (fst kd))); [|eexists; reflexivity].
  rewrite typecheck_run. cbn [negb orb] in Hbad.
  destruct (snd kd) as [a|l|attrs]; cbn [is_dict]; try (eexists; reflexivity).
  apply (for_each_raises (check_attr_edit (fst kd)) malformed_attr_edit).
  - intros x d'. apply check_attr_edit_pure.
  - intros x d'. apply check_attr_edit_raises.
  - exact Hbad.
Qed.

Lemma check_override_raises (items : list (Atom * PyVal)) (d : Dot) :
  existsb malformed_keyword_edit items = true ->
  exists e, check_override (PDict items) d = (d, Raise e).
Proof.
  intros Hbad. unfold check_override, bindM. rewrite typecheck_run. cbn [is_dict].
  apply (for_each_raises check_keyword_edit malformed_keyword_edit).
  - intros x d'. apply check_keyword_edit_pure.
  - intros x d'. apply check_keyword_edit_raises.
  - exact Hbad.
Qed.

(** C7: when the override mapping of a tweak is malformed (a keyword that
    is not a text, an attribute-edit value that is not a mapping, an
    attribute name that is not a text, or an attribute value that is
    neither a text nor [None]), [apply_dot_tweaks] raises and the document
    is as it was: no line is modified, none is appended, nothing is
    printed. *)
Theorem apply_dot_tweaks_validates_first
  (re_match : string -> string -> option (nat -> option string))
  (re_subn : string -> string -> string -> result (string * Z))
  (re_sub : string -> string -> string -> result string)
  (tweak : Tweak) (items : list (Atom * PyVal)) (dot : Dot)
  (Hoverride : override tweak = PDict items)
  (Hmalformed : existsb malformed_keyword_edit items = true) :
  exists e, apply_dot_tweaks re_match re_subn re_sub tweak dot = (dot, Raise e).
Proof.
  destruct (check_override_raises items dot Hmalformed) as [e He].
  exists e. unfold apply_dot_tweaks. rewrite Hoverride. cbn [given].
  unfold bindM at 1. unfold bindM at 1. rewrite He. reflexivity.
Qed.

Lemma apply_dot_tweaks_validates_first_witness :
  override sample_bad_tweak
  = PDict [ (AStr "Y", PDict [(AStr "size", PStr "2")]);
            (AStr "X", PDict [(AStr "color", PAtom (AInt 3))]) ]
  /\ existsb malformed_keyword_edit
             [ (AStr "Y", PDict [(AStr "size", PStr "2")]);
               (AStr "X", PDict [(AStr "color", PAtom (AInt 3))]) ] = true
  /\ exists e,
       apply_dot_tweaks never_match never_subn never_sub sample_bad_tweak sample_dot
       = (sample_dot, Raise e).
Proof.
  split; [reflexivity | split; [reflexivity|]].
  exact (apply_dot_tweaks_validates_first never_match never_subn never_sub
           sample_bad_tweak sample_dot eq_refl eq_refl).
Defined.

(** A well-formed tweak passes the validation: here no line matches, and
    the line to append is added. *)
Example apply_dot_tweaks_sample_good :
  apply_dot_tweaks never_match never_subn never_sub sample_good_tweak sample_dot
  = ({| body := [PStr "X [color=red size=1]"; PStr "Y [color=red]"; PStr "// end"];
        stdout := [] |}, Ok tt).
Proof. reflexivity. Qed.

(** ** Properties of [calculate_node_bgcolor] *)

(** X1: the node background is the first given color among the
    component's own background and the colors of its role: the connector
    color for a connector, the cable color for a cable, and for a bundle
    the bundle color and, failing that, the cable color; a connector
    never takes a cable color. *)
Theorem calculate_node_bgcolor_priority (color_is_set : SingleColor -> bool)
  (component : Component) (harness_options : Options.t) :
  calculate_node_bgcolor color_is_set component harness_options
  = first_given color_is_set (bgcolor_candidates component harness_options)
  /\ (forall c,
         component = IsCable c ->
         color_given color_is_set (Cable.bgcolor c) = false ->
         Cable.category c = AStr "bundle" ->
         color_given color_is_set (Options.bgcolor_bundle harness_options) = false ->
         calculate_node_bgcolor color_is_set component harness_options
         = if color_given color_is_set (Options.bgcolor_cable harness_options)
           then html_of (Options.bgcolor_cable harness_options) else None)
  /\ (forall c,
         component = IsConnector c ->
         color_given color_is_set (Connector.bgcolor c) = false ->
         color_given color_is_set (Options.bgcolor_connector harness_options) = false ->
         calculate_node_bgcolor color_is_set component harness_options = None).
Proof.
  split; [|split].
  - unfold calculate_node_bgcolor, bgcolor_candidates.
    destruct component as [c|c]; cbn [first_given andb].
    + destruct (color_given color_is_set (Connector.bgcolor c)); [reflexivity|].
      destruct (color_given color_is_set (Options.bgcolor_connector harness_options));
        reflexivity.
    + destruct (atom_eqb (Cable.category c) (AStr "bundle")); cbn [first_given andb];
        destruct (color_given color_is_set (Cable.bgcolor c)); try reflexivity;
        try destruct (color_given color_is_set (Options.bgcolor_bundle harness_options));
        try reflexivity;
        destruct (color_given color_is_set (Options.bgcolor_cable harness_options));
        reflexivity.
  - intros c -> Hown Hcat Hbundle. unfold calculate_node_bgcolor.
    rewrite Hown, Hcat, Hbundle. cbn [andb atom_eqb].
    destruct (color_given color_is_set (Options.bgcolor_cable harness_options));
      reflexivity.
  - intros c -> Hown Hconn. unfold calculate_node_bgcolor.
    rewrite Hown, Hconn. reflexivity.
Qed.

Lemma calculate_node_bgcolor_priority_witness :
  calculate_node_bgcolor (fun _ => true)
    (IsCable (sample_cable (AStr "bundle") [] [])) sample_options
  = Some "#EEEEEE"
  /\ calculate_node_bgcolor (fun _ => true)
       (IsConnector (sample_connector true false)) sample_options
     = None.
Proof.
  split.
  - exact (proj1 (proj2 (calculate_node_bgcolor_priority (fun _ => true)
                           (IsCable (sample_cable (AStr "bundle") [] [])) sample_options))
             (sample_cable (AStr "bundle") [] [])
             eq_refl eq_refl eq_refl eq_refl).
  - exact (proj2 (proj2 (calculate_node_bgcolor_priority (fun _ => true)
                           (IsConnector (sample_connector true false)) sample_options))
             (sample_connector true false) eq_refl eq_refl eq_refl).
Defined.

(** ** Properties of [gv_edge_wire] and [gv_edge_mate] *)

Lemma wire_port_tag (wire : Wire.t) :
  wire_port wire = AStr ("w" ++ str_int (Wire.index wire + 1)).
Proof. reflexivity. Qed.

Lemma pin_port_right_tag (ext : Externals) (pin : Pin.t) (connector : Connector.t) :
  Connector.ports_right connector = true ->
  pin_port_right ext pin connector = AStr ("p" ++ str_int (Pin.index pin + 1) ++ "r").
Proof.
  intros HR. unfold pin_port_right, gv_pin_row, row_cells. cbn [contents Tr nth_error].
  rewrite HR. reflexivity.
Qed.

Lemma pin_port_left_tag (ext : Externals) (pin : Pin.t) (connector : Connector.t) :
  Connector.ports_left connector = true ->
  pin_port_left ext pin connector = AStr ("p" ++ str_int (Pin.index pin + 1) ++ "l").
Proof.
  intros HL. unfold pin_port_left, gv_pin_row, row_cells. cbn [contents Tr nth_error].
  rewrite HL. reflexivity.
Qed.

(** What a returned wire edge holds, end by end. *)
Lemma gv_edge_wire_found (html_padded : MultiColor -> string) (harness : Harness)
  (cable : Cable.t) (connection : Connection.t) (edge : WireEdge) :
  gv_edge_wire html_padded harness cable connection = Found edge ->
  match Connection.from_ connection with
  | Some from_ =>
      exists from_port_str,
        port_str harness from_ "r" = Found from_port_str
        /\ code_left_1 edge = Some (Pin.parent from_ ++ from_port_str ++ ":e")
        /\ code_left_2 edge
           = Some (Wire.parent (Connection.via connection) ++ ":w"
                   ++ str_int (Wire.index (Connection.via connection) + 1) ++ ":w")
  | None => code_left_1 edge = None /\ code_left_2 edge = None
  end
  /\ match Connection.to connection with
     | Some to =>
         exists to_port_str,
           port_str harness to "l" = Found to_port_str
           /\ code_right_1 edge
              = Some (Wire.parent (Connection.via connection) ++ ":w"
                      ++ str_int (Wire.index (Connection.via connection) + 1) ++ ":e")
           /\ code_right_2 edge = Some (Pin.parent to ++ to_port_str ++ ":w")
     | None => code_right_1 edge = None /\ code_right_2 edge = None
     end.
Proof.
  unfold gv_edge_wire. intros H.
  destruct (Connection.from_ connection) as [from_|];
    [destruct (port_str harness from_ "r") as [ps|k] eqn:Hfrom; [|discriminate]|];
    (destruct (Connection.to connection) as [to|];
     [destruct (port_str harness to "l") as [pt|k'] eqn:Hto; [|discriminate]|]);
    injection H as <-; cbn [code_left_1 code_left_2 code_right_1 code_right_2 fst snd];
    repeat split; eauto.
Qed.

Lemma port_str_found (harness : Harness) (pin : Pin.t) (side : string)
  (connector : Connector.t) :
  lookup (Pin.parent pin) (connectors harness) = Found connector ->
  port_str harness pin side
  = Found (if atom_eqb (Connector.style connector) (AStr "simple")
           then EmptyString
           else ":p" ++ str_int (Pin.index pin + 1) ++ side).
Proof.
  intros H. unfold port_str. rewrite H.
  destruct (atom_eqb (Connector.style connector) (AStr "simple")); reflexivity.
Qed.

(** X2: the wire ends of a wire edge address the port that [gv_wire_cell]
    tags the stripe of the wire with, entering it from the west on the
    left and leaving it to the east on the right; the end of a side
    without a pin is [None]. *)
Theorem gv_edge_wire_addresses_stripe (html_padded : MultiColor -> string)
  (harness : Harness) (cable : Cable.t) (connection : Connection.t) (edge : WireEdge)
  (Hedge : gv_edge_wire html_padded harness cable connection = Found edge) :
  exists port,
    wire_port (Connection.via connection) = AStr port
    /\ code_left_2 edge
       = match Connection.from_ connection with
         | Some _ => Some (endpoint (Wire.parent (Connection.via connection)) port "w")
         | None => None
         end
    /\ code_right_1 edge
       = match Connection.to connection with
         | Some _ => Some (endpoint (Wire.parent (Connection.via connection)) port "e")
         | None => None
         end.
Proof.
  exists ("w" ++ str_int (Wire.index (Connection.via connection) + 1)).
  split; [apply wire_port_tag|].
  destruct (gv_edge_wire_found _ _ _ _ Hedge) as [HL HR].
  split.
  - destruct (Connection.from_ connection) as [from_|].
    + destruct HL as [ps [_ [_ ->]]]. reflexivity.
    + apply HL.
  - destruct (Connection.to connection) as [to|].
    + destruct HR as [ps [_ [-> _]]]. reflexivity.
    + apply HR.
Qed.

Lemma gv_edge_wire_addresses_stripe_witness :
  gv_edge_wire sample_html_padded sample_harness
    (sample_cable ANone [sample_wire 2 (Some red_green)] [sample_connection])
    sample_connection
  = Found {| color := "#000000:#FF0000:#00FF00:#000000";
             code_left_1 := Some "C:p2r:e"; code_left_2 := Some "W:w3:w";
             code_right_1 := None; code_right_2 := None |}
  /\ exists port,
       wire_port (sample_wire 2 (Some red_green)) = AStr port
       /\ Some "W:w3:w" = Some (endpoint "W" port "w")
       /\ @None string = None.
Proof.
  split; [reflexivity|].
  exact (gv_edge_wire_addresses_stripe sample_html_padded sample_harness
           (sample_cable ANone [sample_wire 2 (Some red_green)] [sample_connection])
           sample_connection eq_refl).
Defined.



Lemma lookup_key_error {A} (key k : string) (d : list (string * A)) :
  lookup key d = KeyError k -> k = key.
Proof.
  induction d as [|[k' v] d IH]; cbn [lookup].
  - intros [= <-]. reflexivity.
  - destruct (String.eqb key k'); [discriminate | exact IH].
Qed.

Lemma port_str_key_error (harness : Harness) (pin : Pin.t) (side key : string) :
  port_str harness pin side = KeyError key ->
  key = Pin.parent pin /\ lookup key (connectors harness) = KeyError key.
Proof.
  unfold port_str.
  destruct (lookup (Pin.parent pin) (connectors harness)) as [c|k] eqn:H; [discriminate|].
  intros [= <-]. pose proof (lookup_key_error _ _ H) as ->. auto.
Qed.

(** X4: [gv_edge_wire] returns an edge exactly when the connector of every
    pin of the connection is in the harness; otherwise it fails with the
    [KeyError] of the designator of such a pin, which the harness does not
    hold. *)
Theorem gv_edge_wire_needs_connectors (html_padded : MultiColor -> string)
  (harness : Harness) (cable : Cable.t) (connection : Connection.t) :
  ((exists edge, gv_edge_wire html_padded harness cable connection = Found edge)
   <-> (forall pin,
           Connection.from_ connection = Some pin \/ Connection.to connection = Some pin ->
           exists connector,
             lookup (Pin.parent pin) (connectors harness) = Found connector))
  /\ (forall key,
         gv_edge_wire html_padded harness cable connection = KeyError key ->
         lookup key (connectors harness) = KeyError key
         /\ exists pin,
              (Connection.from_ connection = Some pin
               \/ Connection.to connection = Some pin)
              /\ Pin.parent pin = key).
Proof.
  split; [split|].
  - intros [edge Hedge] pin Hpin.
    destruct (gv_edge_wire_found _ _ _ _ Hedge) as [HL HR].
    destruct Hpin as [Hpin|Hpin]; rewrite Hpin in *.
    + destruct HL as [ps [Hps _]]. unfold port_str in Hps.
      destruct (lookup (Pin.parent pin) (connectors harness)) as [c|k];
        [eauto | discriminate].
    + destruct HR as [ps [Hps _]]. unfold port_str in Hps.
      destruct (lookup (Pin.parent pin) (connectors harness)) as [c|k];
        [eauto | discriminate].
  - intros Hall. unfold gv_edge_wire.
    destruct (Connection.from_ connection) as [from_|].
    + destruct (Hall from_ (or_introl eq_refl)) as [c Hc].
      rewrite (port_str_found harness from_ "r" Hc).
      destruct (Connection.to connection) as [to|]; [|eauto].
      destruct (Hall to (or_intror eq_refl)) as [c' Hc'].
      rewrite (port_str_found harness to "l" Hc'). eauto.
    + destruct (Connection.to connection) as [to|]; [|eauto].
      destruct (Hall to (or_intror eq_refl)) as [c' Hc'].
      rewrite (port_str_found harness to "l" Hc'). eauto.
  - intros key. unfold gv_edge_wire.
    destruct (Connection.from_ connection) as [from_|].
    + destruct (port_str harness from_ "r") as [ps|k] eqn:Hfrom.
      * destruct (Connection.to connection) as [to|]; [|discriminate].
        destruct (port_str harness to "l") as [pt|k'] eqn:Hto; [discriminate|].
        intros [= ->]. destruct (port_str_key_error _ _ _ Hto) as [-> Hk].
        split; [exact Hk | exists to; auto].
      * intros [= ->]. destruct (port_str_key_error _ _ _ Hfrom) as [-> Hk].
        split; [exact Hk | exists from_; auto].
    + destruct (Connection.to connection) as [to|]; [|discriminate].
      destruct (port_str harness to "l") as [pt|k'] eqn:Hto; [discriminate|].
      intros [= ->]. destruct (port_str_key_error _ _ _ Hto) as [-> Hk].
      split; [exact Hk | exists to; auto].
Qed.

Lemma gv_edge_wire_needs_connectors_witness :
  gv_edge_wire sample_html_padded sample_harness
    (sample_cable ANone [sample_wire 2 None] [stray_connection]) stray_connection
  = KeyError "D"
  /\ lookup "D" (connectors sample_harness) = @KeyError Connector.t "D".
Proof.
  split; [reflexivity|].
  exact (proj1 (proj2 (gv_edge_wire_needs_connectors sample_html_padded sample_harness
                         (sample_cable ANone [sample_wire 2 None] [stray_connection])
                         stray_connection) "D" eq_refl)).
Defined.

(** X5: a mate edge leaves its first end to the east and enters its second
    end from the west.  Between two pins it joins the port that
    [gv_pin_row] tags the right pin-id cell of the first pin with to the
    port of the left pin-id cell of the second pin, for connectors that
    have these sides; between two components it joins the nodes
    themselves.  Its color is one black line for a single arrow and two for
    a double one. *)
Theorem gv_edge_mate_ends (ext : Externals) (mate : Mate) :
  last_char (snd (fst (gv_edge_mate mate))) = Some "e"%char
  /\ last_char (snd (gv_edge_mate mate)) = Some "w"%char
  /\ fst (fst (fst (gv_edge_mate mate)))
     = match weight (arrow_of mate) with
       | SINGLE => "#000000"
       | DOUBLE => "#000000:#000000"
       end
  /\ match mate with
     | MatePin from_ to _ =>
         forall connector_from connector_to,
           Connector.ports_right connector_from = true ->
           Connector.ports_left connector_to = true ->
           exists port_from port_to,
             pin_port_right ext from_ connector_from = AStr port_from
             /\ pin_port_left ext to connector_to = AStr port_to
             /\ snd (fst (gv_edge_mate mate))
                = endpoint (Pin.parent from_) port_from "e"
             /\ snd (gv_edge_mate mate) = endpoint (Pin.parent to) port_to "w"
     | MateComponent from_ to _ =>
         snd (fst (gv_edge_mate mate)) = from_ ++ ":e"
         /\ snd (gv_edge_mate mate) = to ++ ":w"
     end.
Proof.
  split; [|split; [|split]].
  - unfold gv_edge_mate. cbn [fst snd].
    destruct mate as [from_ to a|from_ to a]; cbn [fst snd].
    + rewrite last_char_app by discriminate.
      rewrite last_char_app by discriminate. reflexivity.
    + rewrite last_char_app by discriminate. reflexivity.
  - unfold gv_edge_mate. cbn [fst snd].
    destruct mate as [from_ to a|from_ to a]; cbn [fst snd].
    + rewrite last_char_app by discriminate.
      rewrite last_char_app by discriminate. reflexivity.
    + rewrite last_char_app by discriminate. reflexivity.
  - unfold gv_edge_mate. cbn [fst snd]. destruct (weight (arrow_of mate)); reflexivity.
  - destruct mate as [from_ to a|from_ to a].
    + intros cf ct HR HL.
      exists ("p" ++ str_int (Pin.index from_ + 1) ++ "r"),
             ("p" ++ str_int (Pin.index to + 1) ++ "l").
      split; [apply pin_port_right_tag, HR|].
      split; [apply pin_port_left_tag, HL|].
      split; reflexivity.
    + split; reflexivity.
Qed.

Lemma gv_edge_mate_ends_witness :
  gv_edge_mate (MatePin sample_pin stray_pin sample_arrow)
  = ("#000000:#000000", "forward", "C:p2r:e", "D:p1l:w")
  /\ exists port_from port_to,
       pin_port_right sample_externals sample_pin (sample_connector true true)
       = AStr port_from
       /\ pin_port_left sample_externals stray_pin (sample_connector true true)
          = AStr port_to
       /\ "C:p2r:e" = endpoint "C" port_from "e"
       /\ "D:p1l:w" = endpoint "D" port_to "w".
Proof.
  split; [reflexivity|].
  exact (proj2 (proj2 (proj2 (gv_edge_mate_ends sample_externals
                                (MatePin sample_pin stray_pin sample_arrow))))
           (sample_connector true true) (sample_connector true true)
           eq_refl eq_refl).
Defined.

(** ** How the loop edges fit the rendered connector *)

Lemma append_assoc (a b c : string) : (a ++ b) ++ c = a ++ b ++ c.
Proof.
  induction a as [|x a IH]; cbn [String.append]; [reflexivity | now rewrite IH].
Qed.

Lemma loop_endpoint_is_endpoint (designator : string) (pin : Z) (side compass : string) :
  loop_endpoint designator pin side compass
  = endpoint designator ("p" ++ str_int pin ++ side) compass.
Proof.
  unfold loop_endpoint, endpoint. f_equal.
  cbn [String.append]. f_equal. f_equal. now rewrite append_assoc.
Qed.

(** X6: once a connector has been rendered, its loop edges can be
    computed: on the connector as [gv_node_component] leaves it,
    [gv_connector_loops] does not raise and gives one edge per loop, on
    the right side when only the right side was configured and on the left
    side otherwise. *)
Theorem gv_connector_loops_after_rendering (ext : Externals) (connector : Connector.t) :
  exists rendered,
    fst (gv_node_component ext (IsConnector connector)) = IsConnector rendered
    /\ gv_connector_loops rendered
       = Ok (if negb (Connector.ports_left connector) && Connector.ports_right connector
             then loop_edges_on "r" "e" connector
             else loop_edges_on "l" "w" connector)
    /\ forall edges,
         gv_connector_loops rendered = Ok edges ->
         List.length edges = List.length (Connector.loops connector).
Proof.
  unfold gv_node_component. cbn [fst default_side].
  assert (Hlen : forall side compass,
             List.length (loop_edges_on side compass connector)
             = List.length (Connector.loops connector)).
  { intros. unfold loop_edges_on. apply length_map. }
  destruct (Connector.ports_left connector) eqn:HL.
  - exists connector. cbn [orb negb andb]. split; [reflexivity|].
    rewrite (gv_connector_loops_left _ HL).
    split; [reflexivity|]. intros edges [= <-]. apply Hlen.
  - destruct (Connector.ports_right connector) eqn:HR; cbn [orb negb andb].
    + exists connector. split; [reflexivity|].
      rewrite (gv_connector_loops_right_only _ HL HR).
      split; [reflexivity|]. intros edges [= <-]. apply Hlen.
    + exists (Connector.set_ports_left true connector). split; [reflexivity|].
      rewrite (gv_connector_loops_left (Connector.set_ports_left true connector) eq_refl).
      split; [reflexivity|]. intros edges [= <-].
      unfold loop_edges_on. rewrite length_map. reflexivity.
Qed.

(** X7: the numbers of a loop are pin positions counted from one: on a
    connector with left ports, the edge of the loop [(a, b)] starts at the
    port that [gv_pin_row] tags the left pin-id cell of the pin of index
    [a - 1] with, and ends at that of the pin of index [b - 1], both
    entered from the west. *)
Theorem gv_connector_loops_address_pin_rows (ext : Externals)
  (connector : Connector.t) (a b : Z) (pin_a pin_b : Pin.t)
  (Hleft : Connector.ports_left connector = true)
  (Hloop : In (a, b) (Connector.loops connector))
  (Ha : Pin.index pin_a = a - 1)
  (Hb : Pin.index pin_b = b - 1) :
  exists edges port_a port_b,
    gv_connector_loops connector = Ok edges
    /\ pin_port_left ext pin_a connector = AStr port_a
    /\ pin_port_left ext pin_b connector = AStr port_b
    /\ In (endpoint (Connector.designator connector) port_a "w",
           endpoint (Connector.designator connector) port_b "w") edges.
Proof.
  exists (loop_edges_on "l" "w" connector),
         ("p" ++ str_int (Pin.index pin_a + 1) ++ "l"),
         ("p" ++ str_int (Pin.index pin_b + 1) ++ "l").
  split; [apply gv_connector_loops_left, Hleft|].
  split; [apply pin_port_left_tag, Hleft|].
  split; [apply pin_port_left_tag, Hleft|].
  unfold loop_edges_on. apply in_map_iff. exists (a, b). split; [|exact Hloop].
  cbn [fst snd]. rewrite !loop_endpoint_is_endpoint, Ha, Hb.
  replace (a - 1 + 1) with a by lia. replace (b - 1 + 1) with b by lia.
  reflexivity.
Qed.

Lemma gv_connector_loops_address_pin_rows_witness :
  exists edges port_a port_b,
    gv_connector_loops (sample_connector true false) = Ok edges
    /\ pin_port_left sample_externals
         {| Pin.index := 0; Pin.id := AInt 1; Pin.label := AStr "GND";
            Pin.color := None; Pin.parent := "C" |}
         (sample_connector true false) = AStr port_a
    /\ pin_port_left sample_externals sample_pin (sample_connector true false)
       = AStr port_b
    /\ In (endpoint "C" port_a "w", endpoint "C" port_b "w") edges.
Proof.
  exact (gv_connector_loops_address_pin_rows sample_externals
           (sample_connector true false) 1 2
           {| Pin.index := 0; Pin.id := AInt 1; Pin.label := AStr "GND";
              Pin.color := None; Pin.parent := "C" |}
           sample_pin eq_refl (or_introl eq_refl) eq_refl eq_refl).
Defined.

(** ** Invariants of the table builder *)

Lemma kind_eqb_eq (a b : TagKind) : kind_eqb a b = true -> a = b.
Proof. destruct a, b; cbn; congruence. Qed.

Lemma as_td_kind (item : Node) : kind (as_td item) = KTd.
Proof.
  destruct item as [a|t|l]; try reflexivity.
  cbn [as_td]. destruct (kind_eqb (kind t) KTd) eqn:E; [|reflexivity].
  apply kind_eqb_eq, E.
Qed.

Lemma as_td_of_td (cell : Tag) : kind cell = KTd -> as_td (Elem cell) = cell.
Proof. intros H. cbn [as_td]. rewrite H. reflexivity. Qed.

Lemma make_list_of_cells_kind (inp : Node) (cell : Tag) :
  In cell (make_list_of_cells inp) -> kind cell = KTd.
Proof.
  destruct inp as [a|t|l]; cbn [make_list_of_cells].
  - destruct a; cbn [In]; try contradiction;
      intros [<-|[]]; apply as_td_kind.
  - intros [<-|[]]. apply as_td_kind.
  - intros H. apply in_map_iff in H. destruct H as [x [<- _]]. apply as_td_kind.
Qed.

(** X9: [make_list_of_cells] returns cells only, one per item of a list;
    it gives no cell exactly for [None] and for the empty list, and keeps
    the cells it is given as they are, so that applying it to its own
    result changes nothing. *)
Theorem make_list_of_cells_only_cells (inp : Node) :
  (forall cell, In cell (make_list_of_cells inp) -> kind cell = KTd)
  /\ (forall cell, inp = Elem cell -> kind cell = KTd -> make_list_of_cells inp = [cell])
  /\ (forall items, inp = Items items ->
                    List.length (make_list_of_cells inp) = List.length items)
  /\ (make_list_of_cells inp = [] <-> inp = None_ \/ inp = Items [])
  /\ make_list_of_cells (Items (map Elem (make_list_of_cells inp)))
     = make_list_of_cells inp.
Proof.
  split; [apply make_list_of_cells_kind|].
  split; [intros cell -> Hk; cbn [make_list_of_cells]; now rewrite (as_td_of_td cell Hk)|].
  split; [intros items ->; apply length_map|].
  split.
  - split.
    + destruct inp as [a|t|l]; cbn [make_list_of_cells].
      * destruct a; try discriminate. auto.
      * discriminate.
      * destruct l; [auto | discriminate].
    + intros [->| ->]; reflexivity.
  - cbn [make_list_of_cells]. rewrite map_map.
    pose proof (make_list_of_cells_kind inp) as Hk.
    induction (make_list_of_cells inp) as [|c cells IH]; [reflexivity|].
    cbn [map]. rewrite (as_td_of_td c (Hk c (or_introl eq_refl))). f_equal.
    apply IH. intros cell Hin. apply Hk. right. exact Hin.
Qed.

Lemma is_unmarked_table_true (c : Node) :
  is_unmarked_table c = Ok true -> exists t, c = Elem t /\ kind t = KTable.
Proof.
  unfold is_unmarked_table. destruct c as [a|t|l]; try discriminate.
  destruct (kind_eqb (kind t) KTable) eqn:E; [|discriminate].
  intros _. exists t. split; [reflexivity | apply kind_eqb_eq, E].
Qed.

Lemma nested_table_rows_grow (cell_lists : list (list Tag)) (rows out : list Node) :
  nested_table_rows cell_lists rows = Ok out ->
  exists new,
    out = (rows ++ new)%list
    /\ (List.length new <= List.length cell_lists)%nat
    /\ Forall holds_table new.
Proof.
  revert rows. induction cell_lists as [|lst rest IH]; intros rows H.
  - cbn in H. injection H as <-. exists []. rewrite app_nil_r. auto.
  - cbn [nested_table_rows] in H.
    assert (Hskip : nested_table_rows rest rows = Ok out ->
                    exists new, out = (rows ++ new)%list
                                /\ (List.length new <= List.length (lst :: rest))%nat
                                /\ Forall holds_table new).
    { intros H'. destruct (IH _ H') as [new [E [L F]]].
      exists new. cbn [List.length]. auto. }
    destruct (Nat.eqb (List.length lst) 0); [auto|].
    destruct (Nat.eqb
                (List.length (filter (fun item => is_not_none (contents item)) lst)) 0);
      [auto|].
    set (cells := filter (fun item => is_not_none (contents item)) lst) in *.
    destruct (match cells with
              | [c] => is_unmarked_table (contents c)
              | _ => Ok false
              end) as [direct|e] eqn:Hdirect; [|discriminate].
    cbn [bind] in H.
    destruct (IH _ H) as [new [E [L F]]].
    eexists (_ :: new). rewrite E, <- app_assoc. cbn [app List.length].
    split; [reflexivity|]. split; [lia|]. constructor; [|exact F].
    destruct direct.
    + destruct cells as [|c [|c' cells']]; try discriminate.
      destruct (is_unmarked_table_true _ Hdirect) as [t [Ht Hk]].
      exists t. rewrite Ht. auto.
    + exists (Table (Elem (Tr (Items (map Elem cells)))) wrap_attribs).
      split; reflexivity.
Qed.

(** X8: a table returned by [nested_table] has at least one row and at
    most as many rows as there are logical rows (one when there are none);
    every row holds one cell, and the cell holds a table, except for the
    single row with an empty cell that stands for an empty table. *)
Theorem nested_table_rows_hold_tables (lines : list Node) (tbl : Tag)
  (Hreturn : nested_table lines = Ok tbl) :
  row_cells tbl <> []
  /\ (List.length (row_cells tbl) <= Nat.max 1 (List.length lines))%nat
  /\ (row_cells tbl = [Elem empty_row] \/ Forall holds_table (row_cells tbl))
  /\ kind tbl = KTable.
Proof.
  unfold nested_table in Hreturn.
  destruct (nested_table_rows (map make_list_of_cells lines) []) as [out|e] eqn:Hrows;
    [|discriminate].
  destruct (nested_table_rows_grow _ _ Hrows) as [new [E [L F]]].
  cbn [app] in E. subst out. rewrite length_map in L.
  cbn [bind] in Hreturn. injection Hreturn as <-.
  destruct new as [|r new]; cbn [List.length Nat.eqb row_cells Table contents kind].
  - split; [discriminate|]. split; [lia|]. split; [left; reflexivity | reflexivity].
  - split; [discriminate|]. cbn [List.length] in L.
    split; [lia|]. split; [right; exact F | reflexivity].
Qed.

Lemma nested_table_rows_hold_tables_witness :
  exists tbl,
    nested_table sample_lines = Ok tbl
    /\ List.length (row_cells tbl) = 3%nat
    /\ (row_cells tbl = [Elem empty_row] \/ Forall holds_table (row_cells tbl)).
Proof.
  eexists. split; [reflexivity|]. split; [reflexivity|].
  exact (proj1 (proj2 (proj2 (nested_table_rows_hold_tables sample_lines eq_refl)))).
Defined.

(** ** Invariants of the wire stripe and the conductor table *)

(** X10: the stripe cell of a wire is as high as its bands together: each
    band is 2 high and spans the columns of the row, and the height of the
    cell is twice the number of bands, which is one for a colorless wire
    and two more than the sub-colors of a colored one. *)
Theorem gv_wire_cell_height (wire : Wire.t) (colspan : Z) :
  attr_get "height" ANone (attribs (gv_wire_cell wire colspan))
  = AInt (2 * Z.of_nat (List.length (inner_rows (gv_wire_cell wire colspan))))
  /\ attr_get "colspan" ANone (attribs (gv_wire_cell wire colspan)) = AInt colspan
  /\ Forall (fun band => row_attr "height" band = AInt 2
                         /\ row_attr "colspan" band = AInt colspan)
            (inner_rows (gv_wire_cell wire colspan))
  /\ List.length (inner_rows (gv_wire_cell wire colspan))
     = match Wire.color wire with
       | Some m => if has_color (Some m)
                   then S (S (List.length (html_padded_list m))) else 1%nat
       | None => 1%nat
       end.
Proof.
  unfold gv_wire_cell, inner_rows.
  cbn [contents attribs Td Table row_cells].
  set (color_list := match Wire.color wire with
                     | Some m =>
                         if has_color (Some m)
                         then ([black] ++ html_padded_list m ++ [black])%list
                         else [black]
                     | None => [black]
                     end).
  rewrite (fold_left_append
             (fun bgcolor =>
                Elem (Tr (Elem (Td (Text EmptyString)
                  [kw_str "bgcolor" (if String.eqb bgcolor EmptyString then black else bgcolor);
                   kw_int "border" 0; kw_int "cellpadding" 0;
                   kw_int "colspan" colspan; kw_int "height" 2]))))).
  cbn [app]. rewrite length_map, length_rev.
  split; [reflexivity|]. split; [reflexivity|]. split.
  - apply Forall_forall. intros band Hin. apply in_map_iff in Hin.
    destruct Hin as [bgcolor [<- _]]. split; reflexivity.
  - subst color_list. destruct (Wire.color wire) as [m|]; [|reflexivity].
    destruct (has_color (Some m)); [|reflexivity].
    cbn [app List.length]. rewrite length_app. cbn [List.length]. lia.
Qed.

Lemma conductor_step_rows (ext : Externals) (cable : Cable.t)
  (st : list Node * bool) (wire : Wire.t) :
  exists above stripe,
    conductor_step ext cable st wire
    = ((fst st
        ++ (if Wire.is_shield wire && negb (snd st) then [spacer_row] else [])
        ++ [Elem (Tr (Items above));
            Elem (Tr (Elem (gv_wire_cell wire stripe)))])%list,
       snd st || Wire.is_shield wire).
Proof.
  unfold conductor_step. do 2 eexists.
  destruct st as [rows inserted]. cbn [fst snd].
  destruct (Wire.is_shield wire && negb inserted) eqn:E; cbn [fst snd app]; f_equal.
  - rewrite <- !app_assoc. reflexivity.
  - apply andb_prop in E. destruct E as [-> E]. now destruct inserted.
  - rewrite <- !app_assoc. reflexivity.
  - destruct (Wire.is_shield wire), inserted; cbn in E |- *; congruence.
Qed.

Lemma conductor_fold_rows (ext : Externals) (cable : Cable.t) (wires : list Wire.t)
  (rows : list Node) (inserted : bool) :
  exists body,
    fold_left (conductor_step ext cable) wires (rows, inserted)
    = ((rows ++ body)%list, inserted || existsb Wire.is_shield wires)
    /\ List.length body
       = (2 * List.length wires
          + (if negb inserted && existsb Wire.is_shield wires then 1 else 0))%nat
    /\ List.length (filter is_blank_row body)
       = (if negb inserted && existsb Wire.is_shield wires then 1 else 0)%nat
    /\ (forall pre w post,
           wires = (pre ++ w :: post)%list ->
           inserted = false ->
           existsb Wire.is_shield pre = false -> Wire.is_shield w = true ->
           nth_error body (2 * List.length pre) = Some spacer_row).
Proof.
  revert rows inserted. induction wires as [|wire wires IH]; intros rows inserted.
  - exists []. cbn. rewrite app_nil_r, !orb_false_r, !andb_false_r.
    repeat split; try reflexivity.
    intros pre w post E. destruct pre; discriminate.
  - cbn [fold_left].
    destruct (conductor_step_rows ext cable (rows, inserted) wire) as [above [stripe ->]].
    cbn [fst snd].
    destruct (IH (rows
                  ++ (if Wire.is_shield wire && negb inserted then [spacer_row] else [])
                  ++ [Elem (Tr (Items above));
                      Elem (Tr (Elem (gv_wire_cell wire stripe)))])%list
                 (inserted || Wire.is_shield wire)) as [body [E [L [C P]]]].
    exists (((if Wire.is_shield wire && negb inserted then [spacer_row] else [])
             ++ [Elem (Tr (Items above)); Elem (Tr (Elem (gv_wire_cell wire stripe)))])
            ++ body)%list.
    split; [|split; [|split]].
    + rewrite E. cbn [existsb]. rewrite <- !app_assoc, orb_assoc. reflexivity.
    + rewrite !length_app, L. cbn [existsb List.length].
      destruct (Wire.is_shield wire), inserted, (existsb Wire.is_shield wires);
        cbn [andb negb orb List.length]; lia.
    + rewrite filter_app, length_app, C. cbn [existsb].
      destruct (Wire.is_shield wire), inserted, (existsb Wire.is_shield wires);
        reflexivity.
    + intros pre w post Ewires Hins Hpre Hw. subst inserted.
      destruct pre as [|p pre].
      * cbn [app] in Ewires. injection Ewires as -> ->.
        rewrite Hw. reflexivity.
      * cbn [app] in Ewires. injection Ewires as -> ->.
        cbn [existsb] in Hpre. apply orb_false_elim in Hpre. destruct Hpre as [Hp Hpre].
        rewrite Hp. cbn [andb app orb] in *.
        replace (2 * List.length (p :: pre))%nat
          with (2 + 2 * List.length pre)%nat by (cbn [List.length]; lia).
        cbn [nth_error Nat.add]. apply (P pre w post eq_refl); auto.
Qed.

(** X11: the conductor table has [2 + 2 n] rows for [n] wires without a
    shield and one more with a shield among them: a blank row on top and
    at the bottom, two rows per wire, and one more blank row exactly when
    the cable has a shield, which then stands right before the two rows of
    the first shield; there is no other blank row. *)
Theorem gv_conductor_table_rows (ext : Externals) (cable : Cable.t) :
  List.length (row_cells (gv_conductor_table ext cable))
  = (2 + 2 * List.length (wires_of cable)
     + (if existsb Wire.is_shield (wires_of cable) then 1 else 0))%nat
  /\ nth_error (row_cells (gv_conductor_table ext cable)) 0 = Some spacer_row
  /\ nth_error (row_cells (gv_conductor_table ext cable))
               (List.length (row_cells (gv_conductor_table ext cable)) - 1)
     = Some spacer_row
  /\ List.length (filter is_blank_row (row_cells (gv_conductor_table ext cable)))
     = (2 + (if existsb Wire.is_shield (wires_of cable) then 1 else 0))%nat
  /\ (forall pre w post,
         wires_of cable = (pre ++ w :: post)%list ->
         existsb Wire.is_shield pre = false -> Wire.is_shield w = true ->
         nth_error (row_cells (gv_conductor_table ext cable)) (1 + 2 * List.length pre)
         = Some spacer_row).
Proof.
  unfold gv_conductor_table, wires_of.
  destruct (conductor_fold_rows ext cable (map snd (Cable.wire_objects cable))
              [spacer_row] false) as [body [E [L [C P]]]].
  rewrite E. cbn [fst row_cells contents Table negb andb orb] in *.
  split; [|split; [|split; [|split]]].
  - rewrite !length_app, L. cbn [List.length]. lia.
  - reflexivity.
  - rewrite length_app. cbn [List.length].
    replace (List.length ([spacer_row] ++ body) + 1 - 1)%nat
      with (List.length ([spacer_row] ++ body)) by lia.
    rewrite nth_error_app2 by lia. rewrite Nat.sub_diag. reflexivity.
  - rewrite !filter_app, !length_app, C. cbn. lia.
  - intros pre w post Ewires Hpre Hw.
    pose proof (P pre w post Ewires eq_refl Hpre Hw) as Hnth.
    assert (Hlt : (2 * List.length pre < List.length body)%nat).
    { apply nth_error_Some. rewrite Hnth. discriminate. }
    rewrite nth_error_app1 by (rewrite length_app; cbn [List.length]; lia).
    exact Hnth.
Qed.

Lemma gv_conductor_table_rows_witness :
  List.length (row_cells (gv_conductor_table sample_externals
                            (sample_cable ANone sample_wires []))) = 9%nat
  /\ nth_error (row_cells (gv_conductor_table sample_externals
                             (sample_cable ANone sample_wires []))) 5
     = Some spacer_row.
Proof.
  split.
  - exact (proj1 (gv_conductor_table_rows sample_externals
                    (sample_cable ANone sample_wires []))).
  - exact (proj2 (proj2 (proj2 (proj2 (gv_conductor_table_rows sample_externals
                                         (sample_cable ANone sample_wires [])))))
             [sample_wire 0 (Some red_green); sample_wire 1 None] sample_shield []
             eq_refl eq_refl eq_refl).
Defined.

(** ** Invariants of the pin table *)

Lemma fold_left_append_if {K A B} (keep : A -> bool) (f : A -> B)
  (l : list (K * A)) (acc : list B) :
  fold_left (fun acc kv => if keep (snd kv) then (acc ++ [f (snd kv)])%list else acc)
            l acc
  = (acc ++ map f (filter keep (map snd l)))%list.
Proof.
  revert acc. induction l as [|x l IH]; intros acc; cbn [fold_left filter map].
  - now rewrite app_nil_r.
  - rewrite IH. destruct (keep (snd x)); [|reflexivity].
    cbn [map]. rewrite <- app_assoc. reflexivity.
Qed.

(** X12: the pin table has one row per shown pin, in the order of the
    connector, and none for a hidden pin; all its rows have the same
    shape: the same five places, of which the same ones are left out. *)
Theorem gv_pin_table_rows (ext : Externals) (connector : Connector.t) :
  row_cells (gv_pin_table ext connector)
  = map (fun pin => Elem (gv_pin_row ext pin connector)) (shown_pins ext connector)
  /\ List.length (row_cells (gv_pin_table ext connector))
     = List.length (shown_pins ext connector)
  /\ (forall row,
         In row (row_cells (gv_pin_table ext connector)) ->
         exists shown,
           In shown (map snd (Connector.pin_objects connector))
           /\ row = Elem (gv_pin_row ext shown connector)
           /\ should_show_pin ext connector (Pin.id shown) = true)
  /\ (forall pin pin',
         map is_not_none (row_cells (gv_pin_row ext pin connector))
         = map is_not_none (row_cells (gv_pin_row ext pin' connector))).
Proof.
  assert (Hrows : row_cells (gv_pin_table ext connector)
                  = map (fun pin => Elem (gv_pin_row ext pin connector))
                        (shown_pins ext connector)).
  { unfold gv_pin_table, shown_pins. cbn [row_cells contents Table].
    rewrite (fold_left_append_if
               (fun pin => should_show_pin ext connector (Pin.id pin))
               (fun pin => Elem (gv_pin_row ext pin connector))).
    reflexivity. }
  split; [exact Hrows|]. split; [rewrite Hrows; apply length_map|]. split.
  - intros row Hin. rewrite Hrows in Hin. apply in_map_iff in Hin.
    destruct Hin as [shown [E Hshown]]. exists shown.
    unfold shown_pins in Hshown. apply filter_In in Hshown.
    destruct Hshown as [Hpin Hshow].
    split; [exact Hpin | split; [symmetry; exact E | exact Hshow]].
  - intros pin pin'. unfold gv_pin_row, row_cells. cbn [contents Tr map].
    destruct (Connector.ports_left connector), (Connector.ports_right connector),
      (existsb (fun _pin => has_color (Pin.color (snd _pin)))
               (Connector.pin_objects connector)); reflexivity.
Qed.

(** ** How the rows of a component pass through the table builder *)

Lemma row_content_of_plain_table (t : Tag) :
  kind t = KTable ->
  attr_get "id" (AStr EmptyString) (attribs t) = AStr EmptyString ->
  well_typed_line (Elem t) = true /\ row_content (Elem t) = Some (Elem t).
Proof.
  intros Hk Hid.
  unfold well_typed_line, row_content, surviving_cells.
  cbn [make_list_of_cells as_td]. rewrite Hk.
  cbn [kind_eqb filter Td contents is_not_none lone_table].
  rewrite Hk. cbn [kind_eqb]. unfold id_is_text, force_wrap. rewrite Hid.
  split; reflexivity.
Qed.

Lemma row_content_of_lone_cell (cell : Tag) :
  kind cell = KTd ->
  is_not_none (contents cell) = true ->
  (forall t, contents cell = Elem t -> kind t = KTable ->
             attr_get "id" (AStr EmptyString) (attribs t) = AStr "!") ->
  well_typed_line (Elem cell) = true
  /\ row_content (Elem cell) = Some (bordered_subtable [cell]).
Proof.
  intros Hk Hsome Hmark.
  unfold well_typed_line, row_content, surviving_cells.
  cbn [make_list_of_cells as_td]. rewrite Hk.
  cbn [kind_eqb filter]. rewrite Hsome. cbn [lone_table].
  destruct (contents cell) as [a|t|l] eqn:Hc; try (split; reflexivity).
  destruct (kind_eqb (kind t) KTable) eqn:Ek; [|split; reflexivity].
  unfold id_is_text, force_wrap.
  rewrite (Hmark t eq_refl (kind_eqb_eq _ _ Ek)). split; reflexivity.
Qed.

Lemma row_contents_app (pre post : list Node) :
  row_contents (pre ++ post) = (row_contents pre ++ row_contents post)%list.
Proof. unfold row_contents. apply flat_map_app. Qed.

(** A logical row with a row content, among other logical rows, comes out
    of [nested_table] as the row around that content, at its place. *)
Lemma nested_table_with_row (pre post : list Node) (line content : Node) :
  forallb well_typed_line (pre ++ post) = true ->
  well_typed_line line = true ->
  row_content line = Some content ->
  nested_table (pre ++ line :: post)
  = Ok (outer_table
          (Items (map row_around (row_contents pre)
                  ++ row_around content :: map row_around (row_contents post)))).
Proof.
  intros Hothers Hline Hcontent.
  rewrite forallb_app in Hothers. apply andb_prop in Hothers.
  destruct Hothers as [Hpre Hpost].
  rewrite nested_table_spec
    by (rewrite forallb_app; cbn [forallb]; now rewrite Hpre, Hline, Hpost).
  rewrite row_contents_app.
  change (row_contents (line :: post))
    with ((match row_content line with Some c => [c] | None => [] end)
          ++ row_contents post)%list.
  rewrite Hcontent. cbn [app].
  destruct (row_contents pre) as [|c0 more]; cbn [app map]; reflexivity
    || (rewrite map_app; reflexivity).
Qed.

(** A logical row without a row content leaves no trace in the result of
    [nested_table]. *)
Lemma nested_table_without_row (pre post : list Node) (line : Node) :
  row_content line = None ->
  nested_table (pre ++ line :: post) = nested_table (pre ++ post).
Proof.
  intros Hnone.
  assert (Hline : well_typed_line line = true).
  { unfold well_typed_line. unfold row_content in Hnone.
    destruct (lone_table (surviving_cells line)) as [t|]; [|reflexivity].
    destruct (force_wrap t); discriminate. }
  unfold nested_table.
  enough (H : forall rows,
             nested_table_rows (map make_list_of_cells (pre ++ line :: post)) rows
             = nested_table_rows (map make_list_of_cells (pre ++ post)) rows)
    by (rewrite H; reflexivity).
  induction pre as [|head pre IH]; intros rows; cbn [app map].
  - rewrite (nested_table_rows_step line _ rows Hline), Hnone.
    now rewrite app_nil_r.
  - destruct (well_typed_line head) eqn:Hhead.
    + rewrite !(nested_table_rows_step head _ rows Hhead). apply IH.
    + rewrite !(nested_table_rows_ill_typed head _ rows Hhead). reflexivity.
Qed.

(** X13: the image of a component always gets a row of its own cell:
    [nested_table], given the image cell among logical rows that are well
    typed, returns a table in which the row of the image holds a bordered
    sub-table around the image cell itself, also when the image has a
    fixed size and its cell holds a table, which the mark [!] keeps from
    being taken out of the cell; the cell has the background of the image
    and the sides [TLR] exactly when there is a caption, and the caption
    cell is [None] exactly when the caption is false. *)
Theorem image_cell_is_kept (ext : Externals) (component : Component) (image : Image.t)
  (Himage : Comp.image component = Some image) :
  exists cell,
    fst (image_and_caption_cells ext component) = Elem cell
    /\ nested_table [Elem cell]
       = Ok (outer_table
               (Items [Elem (Tr (Elem (Td (Elem (Table (Elem (Tr (Items [Elem cell])))
                                                       wrap_attribs)) [])))]))
    /\ (forall pre post,
           forallb well_typed_line (pre ++ post) = true ->
           nested_table (pre ++ Elem cell :: post)
           = Ok (outer_table
                   (Items (map row_around (row_contents pre)
                           ++ Elem (Tr (Elem (Td (Elem (Table (Elem (Tr (Items [Elem cell])))
                                                              wrap_attribs)) [])))
                           :: map row_around (row_contents post)))))
    /\ (Image.fixedsize image = true ->
        exists table,
          contents cell = Elem table /\ kind table = KTable
          /\ attr_get "id" (AStr EmptyString) (attribs table) = AStr "!")
    /\ attr_get "bgcolor" ANone (attribs cell) = AStr (html (Image.bgcolor image))
    /\ attr_get "sides" ANone (attribs cell)
       = (if truthy (Image.caption image) then AStr "TLR" else ANone)
    /\ (snd (image_and_caption_cells ext component) = None_
        <-> truthy (Image.caption image) = false).
Proof.
  unfold image_and_caption_cells. rewrite Himage.
  eexists. cbn [fst snd]. split; [reflexivity|].
  match goal with
  | |- nested_table [Elem ?c] = _ /\ _ => set (cell := c)
  end.
  assert (Hrow : well_typed_line (Elem cell) = true
                 /\ row_content (Elem cell) = Some (bordered_subtable [cell])).
  { apply row_content_of_lone_cell.
    - subst cell. destruct (Image.fixedsize image); reflexivity.
    - subst cell. destruct (Image.fixedsize image); reflexivity.
    - subst cell.
      destruct (Image.fixedsize image); cbn [update_attribs contents Td set_flat];
        intros t [= <-]; [reflexivity | discriminate]. }
  destruct Hrow as [Hty Hcontent].
  split; [exact (nested_table_with_row [] [] (Elem cell) eq_refl Hty Hcontent)|].
  split; [intros pre post Hothers;
          exact (nested_table_with_row pre post (Elem cell) Hothers Hty Hcontent)|].
  split.
  { intros Hfixed. subst cell. rewrite Hfixed. eexists.
    split; [reflexivity|]. split; reflexivity. }
  split; [subst cell; destruct (Image.fixedsize image); reflexivity|].
  split; [subst cell; destruct (Image.fixedsize image); reflexivity|].
  destruct (truthy (Image.caption image)); split; try discriminate; reflexivity.
Qed.

Lemma image_cell_is_kept_witness :
  exists cell table,
    fst (image_and_caption_cells sample_externals
           (sample_component_with_image true (AStr "plug"))) = Elem cell
    /\ contents cell = Elem table
    /\ kind table = KTable
    /\ nested_table [Text "X"; Elem cell; None_]
       = Ok (outer_table
               (Items [ row_around (bordered_subtable [Td (Text "X") []]);
                        Elem (Tr (Elem (Td (Elem (Table (Elem (Tr (Items [Elem cell])))
                                                        wrap_attribs)) []))) ]))
    /\ attr_get "sides" ANone (attribs cell) = AStr "TLR".
Proof.
  destruct (image_cell_is_kept sample_externals
              (sample_component_with_image true (AStr "plug"))
              (image := sample_image true (AStr "plug")) eq_refl)
    as [cell [H1 [_ [H3 [H4 [_ [H6 _]]]]]]].
  destruct (H4 eq_refl) as [table [Ht [Hk _]]].
  exists cell, table.
  split; [exact H1|]. split; [exact Ht|]. split; [exact Hk|].
  split; [exact (H3 [Text "X"] [None_] eq_refl) | exact H6].
Defined.

(** ** The rows of a rendered component *)

Lemma lone_table_inv (cells : list Tag) (t : Tag) :
  lone_table cells = Some t ->
  exists c, cells = [c] /\ contents c = Elem t /\ kind t = KTable.
Proof.
  unfold lone_table. destruct cells as [|c [|c' cells]]; try discriminate.
  destruct (contents c) as [a|t'|l] eqn:Hc; try discriminate.
  destruct (kind_eqb (kind t') KTable) eqn:E; [|discriminate].
  intros [= <-]. exists c. split; [reflexivity|]. split; [exact Hc|].
  apply kind_eqb_eq, E.
Qed.

Lemma well_typed_line_cells (line : Node) :
  (forall cell t, In cell (make_list_of_cells line) -> contents cell = Elem t ->
                  kind t = KTable -> id_is_text t = true) ->
  well_typed_line line = true.
Proof.
  intros H. unfold well_typed_line.
  destruct (lone_table (surviving_cells line)) as [t|] eqn:Hlone; [|reflexivity].
  destruct (lone_table_inv _ Hlone) as [c [Hs [Hc Hk]]].
  apply (H c t); auto.
  assert (Hin : In c (surviving_cells line)) by (rewrite Hs; left; reflexivity).
  unfold surviving_cells in Hin. apply filter_In in Hin. apply Hin.
Qed.

Lemma well_typed_items (items : list Node) :
  Forall plain_item items -> well_typed_line (Items items) = true.
Proof.
  intros H. apply well_typed_line_cells. cbn [make_list_of_cells].
  intros cell t Hin. apply in_map_iff in Hin. destruct Hin as [item [<- Hitem]].
  rewrite Forall_forall in H. apply (H item Hitem).
Qed.

Lemma plain_leaf (a : Atom) : plain_item (Leaf a).
Proof. intros t H. discriminate H. Qed.

Lemma plain_bom_bubble (id : Atom) : plain_item (bom_bubble id).
Proof.
  unfold bom_bubble. destruct (is_none id); [apply plain_leaf|].
  intros t H _. cbn in H. injection H as <-. reflexivity.
Qed.

Lemma plain_colorbar_or_none (color : option MultiColor) :
  plain_item (colorbar_or_none color).
Proof.
  unfold colorbar_or_none. destruct color as [m|]; [|apply plain_leaf].
  destruct (has_color (Some m)); [|apply plain_leaf].
  intros t H _. cbn in H. injection H as <-. reflexivity.
Qed.

Lemma plain_if (b : bool) (x y : Node) :
  plain_item x -> plain_item y -> plain_item (if b then x else y).
Proof. destruct b; auto. Qed.

Lemma image_line_well_typed (ext : Externals) (component : Component) :
  well_typed_line (fst (image_and_caption_cells ext component)) = true.
Proof.
  unfold image_and_caption_cells.
  destruct (Comp.image component) as [image|]; [|reflexivity].
  cbn [fst]. apply row_content_of_lone_cell.
  - destruct (Image.fixedsize image); reflexivity.
  - destruct (Image.fixedsize image); reflexivity.
  - destruct (Image.fixedsize image); cbn [update_attribs contents Td set_flat];
      intros t [= <-]; [reflexivity | discriminate].
Qed.

Lemma caption_line_well_typed (ext : Externals) (component : Component) :
  well_typed_line (snd (image_and_caption_cells ext component)) = true.
Proof.
  unfold image_and_caption_cells.
  destruct (Comp.image component) as [image|]; [|reflexivity].
  cbn [snd]. destruct (truthy (Image.caption image)); reflexivity.
Qed.

Lemma additional_line_row (component : Component) :
  well_typed_line (gv_additional_component_table component) = true.
Proof.
  unfold gv_additional_component_table.
  destruct (Nat.eqb (List.length (Comp.additional_components component)) 0);
    [reflexivity|].
  apply row_content_of_plain_table; reflexivity.
Qed.

Lemma ports_table_row (ext : Externals) (component : Component) :
  well_typed_line (Elem (ports_table ext component)) = true
  /\ row_content (Elem (ports_table ext component))
     = Some (Elem (ports_table ext component)).
Proof.
  apply row_content_of_plain_table; destruct component; reflexivity.
Qed.

(** The logical rows that [gv_node_component] hands to the table builder
    for a component as the default-side rule leaves it. *)
Lemma gv_node_component_lines (ext : Externals) (component : Component) :
  exists title rest,
    snd (gv_node_component ext component)
    = (tbl <- nested_table (title :: rest) ;;
       if is_simple (default_side component)
       then tag_first_cell (update_attribs [kw_str "port" "p1r"] tbl)
       else Ok tbl)
    /\ title
       = (if Comp.show_name (default_side component)
          then Elem (colored_cell
                       (Text (remove_links ext (Comp.designator (default_side component))))
                       (Comp.bgcolor_title (default_side component)))
          else None_)
    /\ (is_simple (default_side component) = false ->
        In (Elem (ports_table ext (default_side component))) rest)
    /\ (well_typed_line (partnumbers_to_list ext
                           (Comp.partnumbers (default_side component))) = true ->
        forallb well_typed_line (title :: rest) = true).
Proof.
  unfold gv_node_component. cbn [snd].
  generalize (default_side component). clear component. intros component.
  do 2 eexists. split; [reflexivity|]. split; [reflexivity|]. split.
  - intros Hstyle. destruct component as [c|c]; cbn [is_simple] in Hstyle.
    + rewrite Hstyle. cbn [negb ports_table In]. auto.
    + cbn [ports_table In]. auto.
  - intros Hpn. cbn [forallb].
    repeat (apply andb_true_intro; split); try reflexivity.
    + destruct (Comp.show_name component); reflexivity.
    + exact Hpn.
    + destruct component as [c|c]; apply well_typed_items;
        repeat constructor;
        repeat first [ apply plain_bom_bubble | apply plain_colorbar_or_none
                     | apply plain_leaf | apply plain_if ].
    + destruct component as [c|c].
      * destruct (negb (atom_eqb (Connector.style c) (AStr "simple")));
          [apply (ports_table_row ext (IsConnector c)) | reflexivity].
      * apply (ports_table_row ext (IsCable c)).
    + apply image_line_well_typed.
    + apply caption_line_well_typed.
    + apply additional_line_row.
    + apply well_typed_items. repeat constructor. apply plain_leaf.
Qed.

Lemma default_side_keeps (component : Component) :
  Comp.partnumbers (default_side component) = Comp.partnumbers component
  /\ Comp.show_name (default_side component) = Comp.show_name component
  /\ is_simple (default_side component) = is_simple component.
Proof.
  destruct component as [c|c]; cbn [default_side]; [|auto].
  destruct (negb (Connector.ports_left c || Connector.ports_right c)); auto.
Qed.

Lemma row_contents_in (lines : list Node) (line content : Node) :
  In line lines -> row_content line = Some content -> In content (row_contents lines).
Proof.
  intros Hin Hrow. unfold row_contents. apply in_flat_map.
  exists line. split; [exact Hin|]. rewrite Hrow. left. reflexivity.
Qed.

(** X14: for a cable and for a connector that is not of style [simple],
    [gv_node_component] returns a table whenever the rows of part numbers
    it is given bring no table with an [id] other than a text; one of the
    rows of that table holds the pin table of the connector as the call
    leaves it, or the conductor table of the cable, directly in its one
    cell, with no table in between. *)
Theorem gv_node_component_holds_ports_table (ext : Externals) (component : Component)
  (Hpn : well_typed_line (partnumbers_to_list ext (Comp.partnumbers component)) = true)
  (Hstyle : is_simple component = false) :
  exists tbl,
    snd (gv_node_component ext component) = Ok tbl
    /\ In (row_around (Elem (ports_table ext (fst (gv_node_component ext component)))))
          (row_cells tbl)
    /\ Forall holds_table (row_cells tbl).
Proof.
  destruct (default_side_keeps component) as [Kpn [_ Ksimple]].
  destruct (gv_node_component_lines ext component) as [title [rest [Hsnd [_ [Hports Hty]]]]].
  rewrite Kpn in Hty. rewrite Ksimple in Hsnd, Hports.
  specialize (Hty Hpn). specialize (Hports Hstyle).
  rewrite Hsnd, (nested_table_spec _ Hty), Hstyle. cbn [bind].
  assert (Hin : In (Elem (ports_table ext (default_side component)))
                   (row_contents (title :: rest))).
  { apply (row_contents_in (title :: rest) (Elem (ports_table ext (default_side component)))).
    - right. exact Hports.
    - apply ports_table_row. }
  eexists. split; [reflexivity|].
  destruct (row_contents (title :: rest)) as [|c more] eqn:Hrc; [contradiction|].
  cbn [row_cells outer_table Table contents].
  split; [apply in_map, Hin|].
  pose proof (nested_table_rows_spec (title :: rest) [] Hty) as Hrows.
  destruct (nested_table_rows_grow _ _ Hrows) as [new [E [_ Hall]]].
  cbn [app] in E. rewrite Hrc in E. rewrite E. exact Hall.
Qed.

Lemma gv_node_component_holds_ports_table_witness :
  exists tbl,
    snd (gv_node_component sample_externals (IsConnector (sample_connector false false)))
    = Ok tbl
    /\ In (row_around (Elem (gv_pin_table sample_externals (sample_connector true false))))
          (row_cells tbl).
Proof.
  destruct (gv_node_component_holds_ports_table sample_externals
              (IsConnector (sample_connector false false)) eq_refl eq_refl)
    as [tbl [H1 [H2 _]]].
  exists tbl. split; [exact H1 | exact H2].
Defined.

(** X15: a connector of style [simple] that shows its name is rendered,
    under the same condition on the rows of part numbers, as a table
    tagged with the port [p1r] whose first row holds a cell tagged with
    the port [p1l]; these are the ports that a mate edge names for the pin
    of index 0 of the connector. *)
Theorem gv_node_component_simple_ports (ext : Externals) (connector : Connector.t)
  (Hpn : well_typed_line (partnumbers_to_list ext (Connector.partnumbers connector))
         = true)
  (Hstyle : Connector.style connector = AStr "simple")
  (Hname : Connector.show_name connector = true) :
  exists tbl row rest cell,
    snd (gv_node_component ext (IsConnector connector)) = Ok tbl
    /\ port_of (Elem tbl) = AStr "p1r"
    /\ contents tbl = Items (Elem row :: rest)
    /\ contents row = Elem cell
    /\ port_of (Elem cell) = AStr "p1l"
    /\ forall pin other arrow,
         Pin.index pin = 0 ->
         snd (fst (gv_edge_mate (MatePin pin other arrow)))
         = endpoint (Pin.parent pin) "p1r" "e"
         /\ snd (gv_edge_mate (MatePin other pin arrow))
            = endpoint (Pin.parent pin) "p1l" "w".
Proof.
  destruct (default_side_keeps (IsConnector connector)) as [Kpn [Kname Ksimple]].
  destruct (gv_node_component_lines ext (IsConnector connector))
    as [title [rest [Hsnd [Htitle [_ Hty]]]]].
  rewrite Kpn in Hty. rewrite Ksimple in Hsnd. rewrite Kname in Htitle.
  cbn [Comp.show_name Comp.partnumbers is_simple] in *.
  rewrite Hname in Htitle. rewrite Hstyle in Hsnd. cbn [atom_eqb] in Hsnd.
  specialize (Hty Hpn).
  rewrite Hsnd, (nested_table_spec _ Hty).
  assert (Hfirst : exists content more,
             row_contents (title :: rest) = content :: more).
  { unfold row_contents. cbn [flat_map]. rewrite Htitle. do 2 eexists. reflexivity. }
  destruct Hfirst as [content [more ->]].
  do 4 eexists. cbn [bind String.eqb Ascii.eqb Bool.eqb].
  split; [reflexivity|]. split; [reflexivity|]. split; [reflexivity|].
  split; [reflexivity|]. split; [reflexivity|].
  intros pin other arrow Hidx. unfold gv_edge_mate. cbn [fst snd].
  rewrite Hidx. split; reflexivity.
Qed.

Lemma gv_node_component_simple_ports_witness :
  exists tbl row rest cell,
    snd (gv_node_component sample_externals (IsConnector sample_simple_connector)) = Ok tbl
    /\ port_of (Elem tbl) = AStr "p1r"
    /\ contents tbl = Items (Elem row :: rest)
    /\ contents row = Elem cell
    /\ port_of (Elem cell) = AStr "p1l".
Proof.
  destruct (gv_node_component_simple_ports sample_externals sample_simple_connector
              eq_refl eq_refl eq_refl)
    as [tbl [row [rest [cell [H1 [H2 [H3 [H4 [H5 _]]]]]]]]].
  exists tbl, row, rest, cell. repeat split; assumption.
Defined.

(** ** The tweak engine: appended lines *)

Lemma bindM_ret {A} (k : unit -> M A) (d : Dot) :
  bindM (ret tt) k d = k tt d.
Proof. reflexivity. Qed.

Lemma check_elements_run (elements : list PyVal) (start : nat) (d : Dot) :
  exists r,
    for_each (fun ie : nat * PyVal =>
                typecheck ("tweak.append[" ++ str_int (Z.of_nat (fst ie)) ++ "]")
                          (snd ie) is_str)
             (enumerate start elements) d = (d, r)
    /\ (forallb is_str elements = true -> r = Ok tt)
    /\ (forallb is_str elements = false -> exists e, r = Raise e).
Proof.
  revert start. induction elements as [|x elements IH]; intros start.
  - exists (Ok tt). repeat split; auto. discriminate.
  - cbn [enumerate for_each forallb]. unfold bindM. rewrite typecheck_run. cbn [snd].
    destruct (is_str x).
    + destruct (IH (S start)) as [r [E [H1 H2]]]. exists r. rewrite E. auto.
    + eexists. split; [reflexivity|]. split; [discriminate | eauto].
Qed.

(** X16: without an override, [apply_dot_tweaks] appends the lines of the
    tweak after the lines of the document, in order, and prints nothing; a
    list of lines is checked as a whole first, so that one element that is
    not a text makes the call raise with the document as it was, no line
    appended. *)
Theorem apply_dot_tweaks_appends
  (re_match : string -> string -> option (nat -> option string))
  (re_subn : string -> string -> string -> result (string * Z))
  (re_sub : string -> string -> string -> result string)
  (tweak : Tweak) (dot : Dot)
  (Hoverride : override tweak = PAtom ANone) :
  (append tweak = PAtom ANone ->
   apply_dot_tweaks re_match re_subn re_sub tweak dot = (dot, Ok tt))
  /\ (forall line,
         append tweak = PStr line ->
         apply_dot_tweaks re_match re_subn re_sub tweak dot
         = ({| body := (body dot ++ [PStr line])%list; stdout := stdout dot |}, Ok tt))
  /\ (forall elements,
         append tweak = PList elements -> forallb is_str elements = true ->
         apply_dot_tweaks re_match re_subn re_sub tweak dot
         = ({| body := (body dot ++ elements)%list; stdout := stdout dot |}, Ok tt))
  /\ (forall elements,
         append tweak = PList elements -> forallb is_str elements = false ->
         exists e, apply_dot_tweaks re_match re_subn re_sub tweak dot = (dot, Raise e))
  /\ (forall value,
         append tweak = value -> given value = true ->
         (forall elements, value <> PList elements) -> is_str value = false ->
         exists e, apply_dot_tweaks re_match re_subn re_sub tweak dot = (dot, Raise e)).
Proof.
  unfold apply_dot_tweaks. rewrite Hoverride. cbn [given]. rewrite bindM_ret.
  split; [|split; [|split; [|split]]].
  - intros ->. destruct dot. reflexivity.
  - intros line ->. reflexivity.
  - intros elements -> Hall. cbn [given]. unfold bindM at 1.
    destruct (check_elements_run elements 1 dot) as [r [-> [Hok _]]].
    rewrite (Hok Hall). reflexivity.
  - intros elements -> Hsome. cbn [given]. unfold bindM at 1.
    destruct (check_elements_run elements 1 dot) as [r [-> [_ Hbad]]].
    destruct (Hbad Hsome) as [e ->]. exists e. reflexivity.
  - intros value -> Hgiven Hlist Hstr. rewrite Hgiven.
    destruct value as [a|l|d].
    + unfold bindM at 1. rewrite typecheck_run, Hstr. eexists. reflexivity.
    + exfalso. apply (Hlist l). reflexivity.
    + unfold bindM at 1. rewrite typecheck_run, Hstr. eexists. reflexivity.
Qed.

Lemma apply_dot_tweaks_appends_witness :
  apply_dot_tweaks never_match never_subn never_sub
    {| override := PAtom ANone; append := PList [PStr "// a"; PStr "// b"] |} sample_dot
  = ({| body := [PStr "X [color=red size=1]"; PStr "Y [color=red]";
                 PStr "// a"; PStr "// b"];
        stdout := [] |}, Ok tt)
  /\ exists e,
       apply_dot_tweaks never_match never_subn never_sub
         {| override := PAtom ANone; append := PList [PStr "// a"; PAtom (AInt 7)] |}
         sample_dot
       = (sample_dot, Raise e).
Proof.
  split.
  - exact (proj1 (proj2 (proj2 (apply_dot_tweaks_appends never_match never_subn never_sub
                                  {| override := PAtom ANone;
                                     append := PList [PStr "// a"; PStr "// b"] |}
                                  sample_dot eq_refl)))
             [PStr "// a"; PStr "// b"] eq_refl eq_refl).
  - exact (proj1 (proj2 (proj2 (proj2 (apply_dot_tweaks_appends never_match never_subn
                                         never_sub
                                         {| override := PAtom ANone;
                                            append := PList [PStr "// a"; PAtom (AInt 7)] |}
                                         sample_dot eq_refl))))
             [PStr "// a"; PAtom (AInt 7)] eq_refl eq_refl).
Defined.

(** ** The tweak engine: overridden lines *)

Lemma set_item_length (i : nat) (v : PyVal) (l : list PyVal) :
  List.length (set_item i v l) = List.length l.
Proof.
  revert i. induction l as [|x l IH]; intros [|i]; cbn [set_item List.length];
    auto.
Qed.

Lemma set_item_other (i j : nat) (v : PyVal) (l : list PyVal) :
  i <> j -> nth_error (set_item i v l) j = nth_error l j.
Proof.
  revert i j. induction l as [|x l IH]; intros [|i] [|j] H;
    cbn [set_item nth_error]; auto; try contradiction.
Qed.

Lemma enumerate_in {A} (start j : nat) (v : A) (l : list A) :
  In (j, v) (enumerate start l) <->
  (start <= j)%nat /\ nth_error l (j - start) = Some v.
Proof.
  revert start. induction l as [|x l IH]; intros start; cbn [enumerate In].
  - split; [contradiction|]. intros [_ H]. destruct (j - start)%nat; discriminate.
  - rewrite IH. split.
    + intros [[= <- <-]|[Hle Hnth]].
      * rewrite Nat.sub_diag. auto.
      * split; [lia|]. replace (j - start)%nat with (S (j - S start)) by lia.
        exact Hnth.
    + intros [Hle Hnth]. destruct (Nat.eq_dec start j) as [<-|Hne].
      * rewrite Nat.sub_diag in Hnth. injection Hnth as <-. auto.
      * right. split; [lia|].
        replace (j - start)%nat with (S (j - S start)) in Hnth by lia.
        exact Hnth.
Qed.

Section OverrideFrame.

Variable re_match : string -> string -> option (nat -> option string).
Variable re_subn : string -> string -> string -> result (string * Z).
Variable re_sub : string -> string -> string -> result string.

Lemma edit_attribute_body (keyword entry : string) (av : Atom * PyVal) (d : Dot) :
  body (fst (edit_attribute re_subn re_sub keyword entry av d)) = body d.
Proof.
  unfold edit_attribute.
  destruct (snd av) as [[|value|z]|l|dd]; try reflexivity.
  - unfold bindM, lift.
    destruct (re_subn ("( +)?" ++ assignment_pattern (str_atom (fst av)) ++ "(?(1)| *)")
                      EmptyString entry) as [r|e]; [|reflexivity].
    destruct (snd r <? 1); [reflexivity|].
    destruct (1 <? snd r); reflexivity.
  - cbv zeta. unfold bindM at 1. unfold lift at 1.
    match goal with
    | |- context [re_subn ?p ?r entry] => destruct (re_subn p r entry) as [res|e]
    end; [|reflexivity].
    destruct (snd res <? 1); [reflexivity|].
    destruct (1 <? snd res); reflexivity.
Qed.

Lemma for_fold_body {A B} (f : B -> A -> M B) (l : list A) :
  (forall acc x d, body (fst (f acc x d)) = body d) ->
  forall acc d, body (fst (for_fold f l acc d)) = body d.
Proof.
  intros Hf. induction l as [|x l IH]; intros acc d; [reflexivity|].
  cbn [for_fold]. unfold bindM. specialize (Hf acc x d).
  destruct (f acc x d) as [d' [acc'|e]]; cbn [fst] in *.
  - rewrite IH. exact Hf.
  - exact Hf.
Qed.

(** One round of the loop over the lines leaves the lines alone, or puts
    a text in the place of the line of its index, which it does only for a
    line that is targeted. *)
Lemma override_entry_body (items : list (Atom * PyVal)) (i : nat) (line : PyVal)
  (d : Dot) :
  (targeted re_match items line = false ->
   override_entry re_match re_subn re_sub items (i, line) d = (d, Ok tt))
  /\ (body (fst (override_entry re_match re_subn re_sub items (i, line) d)) = body d
      \/ (targeted re_match items line = true
          /\ exists entry,
               body (fst (override_entry re_match re_subn re_sub items (i, line) d))
               = set_item i (PStr entry) (body d))).
Proof.
  unfold override_entry, targeted. cbn [fst snd]. fold (keyword_of re_match).
  destruct line as [[|entry|z]|l|dd]; try (split; [reflexivity | left; reflexivity]).
  fold (keyword_of re_match entry).
  destruct (dict_get (keyword_of re_match entry) items) as [[a|l|attrs]|];
    try (split; [discriminate | left; reflexivity]);
    [|split; [reflexivity | left; reflexivity]].
  split; [discriminate|].
  unfold bindM.
  pose proof (for_fold_body
                (edit_attribute re_subn re_sub (str_atom (keyword_of re_match entry)))
                attrs
                (edit_attribute_body (str_atom (keyword_of re_match entry)))
                entry d) as Hbody.
  destruct (for_fold (edit_attribute re_subn re_sub
                        (str_atom (keyword_of re_match entry))) attrs entry d)
    as [d' [entry'|e]]; cbn [fst] in *.
  - right. split; [reflexivity|]. exists entry'. cbn. rewrite Hbody. reflexivity.
  - left. exact Hbody.
Qed.

Lemma override_loop_frame (items : list (Atom * PyVal)) (l : list (nat * PyVal))
  (d : Dot) :
  List.length (body (fst (for_each (override_entry re_match re_subn re_sub items) l d)))
  = List.length (body d)
  /\ forall j,
       (forall line, In (j, line) l -> targeted re_match items line = false) ->
       nth_error (body (fst (for_each (override_entry re_match re_subn re_sub items) l d))) j
       = nth_error (body d) j.
Proof.
  revert d. induction l as [|[i line] l IH]; intros d; [split; reflexivity|].
  cbn [for_each]. unfold bindM.
  destruct (override_entry_body items i line d) as [Hskip Hbody].
  destruct (override_entry re_match re_subn re_sub items (i, line) d)
    as [d' [[]|e]] eqn:Hstep; cbn [fst] in *.
  - destruct (IH d') as [Hlen Hnth]. split.
    + rewrite Hlen. destruct Hbody as [->|[_ [entry ->]]];
        [reflexivity | apply set_item_length].
    + intros j Hj. rewrite Hnth by (intros line' Hin; apply Hj; right; exact Hin).
      destruct Hbody as [->|[Htarget [entry ->]]]; [reflexivity|].
      apply set_item_other. intros <-.
      rewrite (Hj line (or_introl eq_refl)) in Htarget. discriminate.
  - split.
    + destruct Hbody as [->|[_ [entry ->]]]; [reflexivity | apply set_item_length].
    + intros j Hj. destruct Hbody as [->|[Htarget [entry ->]]]; [reflexivity|].
      apply set_item_other. intros <-.
      rewrite (Hj line (or_introl eq_refl)) in Htarget. discriminate.
Qed.

Lemma override_loop_untargeted (items : list (Atom * PyVal)) (l : list (nat * PyVal))
  (d : Dot) :
  (forall j line, In (j, line) l -> targeted re_match items line = false) ->
  for_each (override_entry re_match re_subn re_sub items) l d = (d, Ok tt).
Proof.
  induction l as [|[i line] l IH]; intros H; [reflexivity|].
  cbn [for_each]. unfold bindM.
  rewrite (proj1 (override_entry_body items i line d) (H i line (or_introl eq_refl))).
  apply IH. intros j line' Hin. apply (H j line'). right. exact Hin.
Qed.

End OverrideFrame.

Lemma check_override_pure (items : list (Atom * PyVal)) (d : Dot) :
  exists r, check_override (PDict items) d = (d, r).
Proof.
  unfold check_override, bindM. rewrite typecheck_run. cbn [is_dict].
  apply for_each_pure. intros x d'. apply check_keyword_edit_pure.
Qed.

(** X17: an override changes lines in place: whether the call returns or
    raises, be it in the validation or from the regular expression engine
    rejecting a pattern or a replacement on some line, the document has as
    many lines as before, and every line that is not a text, or whose
    keyword is not a key of the override, is the line it was, at the place
    it was. *)
Theorem apply_dot_tweaks_override_frame
  (re_match : string -> string -> option (nat -> option string))
  (re_subn : string -> string -> string -> result (string * Z))
  (re_sub : string -> string -> string -> result string)
  (tweak : Tweak) (items : list (Atom * PyVal)) (dot : Dot)
  (Hoverride : override tweak = PDict items)
  (Happend : append tweak = PAtom ANone) :
  List.length (body (fst (apply_dot_tweaks re_match re_subn re_sub tweak dot)))
  = List.length (body dot)
  /\ forall j line,
       nth_error (body dot) j = Some line ->
       targeted re_match items line = false ->
       nth_error (body (fst (apply_dot_tweaks re_match re_subn re_sub tweak dot))) j
       = Some line.
Proof.
  assert (Hrun : exists d' r,
             apply_dot_tweaks re_match re_subn re_sub tweak dot = (d', r)
             /\ List.length (body d') = List.length (body dot)
             /\ forall j,
                  (forall line, In (j, line) (enumerate 0 (body dot)) ->
                                targeted re_match items line = false) ->
                  nth_error (body d') j = nth_error (body dot) j).
  { unfold apply_dot_tweaks. rewrite Hoverride, Happend. cbn [given].
    unfold bindM, get_body, ret.
    destruct (check_override_pure items dot) as [r ->].
    destruct r as [[]|e]; [|do 2 eexists; split; [reflexivity | auto]].
    destruct (override_loop_frame re_match re_subn re_sub items
                (enumerate 0 (body dot)) dot) as [Hlen Hnth].
    destruct (for_each (override_entry re_match re_subn re_sub items)
                (enumerate 0 (body dot)) dot) as [d' [[]|e]]; cbn [fst] in *;
      do 2 eexists; (split; [reflexivity | auto]). }
  destruct Hrun as [d' [r [-> [Hlen Hnth]]]]. cbn [fst].
  split; [exact Hlen|]. intros j line Hline Htarget. rewrite Hnth; [exact Hline|].
  intros line' Hin. apply enumerate_in in Hin. destruct Hin as [_ Hin].
  rewrite Nat.sub_0_r, Hline in Hin. injection Hin as <-. exact Htarget.
Qed.

Lemma apply_dot_tweaks_override_frame_witness :
  apply_dot_tweaks word_match never_subn bracket_sub sample_override_tweak sample_dot
  = ({| body := [PStr "X [color=red size=1]"; PStr "Y [color=red size=2]"];
        stdout := [] |}, Ok tt)
  /\ apply_dot_tweaks word_match picky_subn bracket_sub sample_rejected_tweak sample_dot
     = ({| body := [PStr "X [color=red size=1 size=2]"; PStr "Y [color=red]"];
           stdout := [] |}, Raise (Exception "re.error"))
  /\ List.length (body (fst (apply_dot_tweaks word_match picky_subn bracket_sub
                               sample_rejected_tweak sample_dot))) = 2%nat
  /\ nth_error (body (fst (apply_dot_tweaks word_match never_subn bracket_sub
                             sample_override_tweak sample_dot))) 0
     = Some (PStr "X [color=red size=1]").
Proof.
  split; [reflexivity|]. split; [reflexivity|]. split.
  - exact (proj1 (apply_dot_tweaks_override_frame word_match picky_subn bracket_sub
                    sample_rejected_tweak sample_dot eq_refl eq_refl)).
  - exact (proj2 (apply_dot_tweaks_override_frame word_match never_subn bracket_sub
                    sample_override_tweak sample_dot eq_refl eq_refl)
             0%nat (PStr "X [color=red size=1]") eq_refl eq_refl).
Defined.

Lemma for_each_ok {A} (f : A -> M unit) (l : list A) :
  (forall x d, In x l -> f x d = (d, Ok tt)) ->
  forall d, for_each f l d = (d, Ok tt).
Proof.
  induction l as [|x l IH]; intros H d; [reflexivity|].
  cbn [for_each]. unfold bindM. rewrite (H x d (or_introl eq_refl)).
  apply IH. intros y d' Hy. apply H. right. exact Hy.
Qed.

Lemma existsb_false_in {A} (f : A -> bool) (l : list A) (x : A) :
  existsb f l = false -> In x l -> f x = false.
Proof.
  intros Hex Hin. destruct (f x) eqn:E; [|reflexivity].
  rewrite <- Hex. symmetry. apply existsb_exists. exists x. auto.
Qed.

Lemma check_attr_edit_ok (k : Atom) (av : Atom * PyVal) (d : Dot) :
  malformed_attr_edit av = false -> check_attr_edit k av d = (d, Ok tt).
Proof.
  unfold malformed_attr_edit, check_attr_edit, bindM. intros H.
  apply orb_false_elim in H. destruct H as [H1 H2].
  apply negb_false_iff in H1. apply negb_false_iff in H2.
  rewrite typecheck_run, H1. cbv beta iota. rewrite typecheck_run, H2. reflexivity.
Qed.

Lemma check_keyword_edit_ok (kd : Atom * PyVal) (d : Dot) :
  malformed_keyword_edit kd = false -> check_keyword_edit kd d = (d, Ok tt).
Proof.
  unfold malformed_keyword_edit, check_keyword_edit, bindM. intros H.
  apply orb_false_elim in H. destruct H as [H1 H2].
  apply negb_false_iff in H1. rewrite typecheck_run, H1. cbv beta iota.
  rewrite typecheck_run.
  destruct (snd kd) as [a|l|attrs]; try discriminate. cbn [is_dict].
  apply for_each_ok. intros av d' Hin. apply check_attr_edit_ok.
  apply (existsb_false_in _ _ _ H2 Hin).
Qed.

Lemma check_override_ok (items : list (Atom * PyVal)) (d : Dot) :
  existsb malformed_keyword_edit items = false ->
  check_override (PDict items) d = (d, Ok tt).
Proof.
  intros H. unfold check_override, bindM. rewrite typecheck_run. cbn [is_dict].
  apply for_each_ok. intros kd d' Hin. apply check_keyword_edit_ok.
  apply (existsb_false_in _ _ _ H Hin).
Qed.

(** X18: an override that is well formed and targets no line of the
    document changes nothing: the call returns with every line as it was
    and nothing printed. *)
Theorem apply_dot_tweaks_no_target
  (re_match : string -> string -> option (nat -> option string))
  (re_subn : string -> string -> string -> result (string * Z))
  (re_sub : string -> string -> string -> result string)
  (tweak : Tweak) (items : list (Atom * PyVal)) (dot : Dot)
  (Hoverride : override tweak = PDict items)
  (Happend : append tweak = PAtom ANone)
  (Hwell : existsb malformed_keyword_edit items = false)
  (Hnone : existsb (targeted re_match items) (body dot) = false) :
  apply_dot_tweaks re_match re_subn re_sub tweak dot = (dot, Ok tt).
Proof.
  unfold apply_dot_tweaks. rewrite Hoverride, Happend. cbn [given].
  unfold bindM, get_body, ret.
  rewrite (check_override_ok items dot Hwell).
  rewrite (override_loop_untargeted re_match re_subn re_sub items
             (enumerate 0 (body dot)) dot); [reflexivity|].
  intros j line Hin. apply enumerate_in in Hin. destruct Hin as [_ Hin].
  apply (existsb_false_in _ _ _ Hnone). apply (nth_error_In _ _ Hin).
Qed.

Lemma apply_dot_tweaks_no_target_witness :
  existsb (targeted word_match [(AStr "Z", PDict [(AStr "size", PStr "2")])])
          (body sample_dot) = false
  /\ apply_dot_tweaks word_match never_subn bracket_sub
       {| override := PDict [(AStr "Z", PDict [(AStr "size", PStr "2")])];
          append := PAtom ANone |} sample_dot
     = (sample_dot, Ok tt).
Proof.
  split; [reflexivity|].
  exact (apply_dot_tweaks_no_target word_match never_subn bracket_sub
           {| override := PDict [(AStr "Z", PDict [(AStr "size", PStr "2")])];
              append := PAtom ANone |} sample_dot eq_refl eq_refl eq_refl eq_refl).
Defined.

(** ** Ports are told apart *)

Lemma to_int_not_nil (z : Z) :
  Z.to_int z <> Decimal.Pos Decimal.Nil /\ Z.to_int z <> Decimal.Neg Decimal.Nil.
Proof.
  destruct z as [|p|p]; cbn; split; try discriminate.
  - intros [= H]. exact (DecimalPos.Unsigned.to_uint_nonnil p H).
  - intros [= H]. exact (DecimalPos.Unsigned.to_uint_nonnil p H).
Qed.

Lemma str_int_inj (a b : Z) : str_int a = str_int b -> a = b.
Proof.
  unfold str_int. intros H.
  apply (f_equal NilZero.int_of_string) in H.
  destruct (to_int_not_nil a) as [Ha1 Ha2]. destruct (to_int_not_nil b) as [Hb1 Hb2].
  rewrite !NilZero.isi in H by assumption. injection H as H.
  rewrite <- (DecimalZ.of_to a), <- (DecimalZ.of_to b), H. reflexivity.
Qed.

Lemma length_append (s t : string) :
  String.length (s ++ t) = (String.length s + String.length t)%nat.
Proof.
  induction s as [|c s IH]; cbn [String.append String.length Nat.add];
    [reflexivity | now rewrite IH].
Qed.

Lemma append_inj_r (s1 s2 t : string) : s1 ++ t = s2 ++ t -> s1 = s2.
Proof.
  revert s2. induction s1 as [|c s1 IH]; intros [|d s2] H; cbn [String.append] in H.
  - reflexivity.
  - apply (f_equal String.length) in H. cbn [String.length] in H.
    rewrite length_append in H. lia.
  - apply (f_equal String.length) in H. cbn [String.length] in H.
    rewrite length_append in H. lia.
  - injection H as -> H. f_equal. apply IH, H.
Qed.

(** X19: the ports tell pins and wires apart: on a connector, two pins get
    the same left port, or the same right port, only if they have the same
    index, and no left port is a right port; two wires get the same port
    only if they have the same index. *)
Theorem ports_tell_pins_and_wires_apart (ext : Externals) (connector : Connector.t) :
  (forall pin pin',
      Connector.ports_left connector = true ->
      pin_port_left ext pin connector = pin_port_left ext pin' connector ->
      Pin.index pin = Pin.index pin')
  /\ (forall pin pin',
         Connector.ports_right connector = true ->
         pin_port_right ext pin connector = pin_port_right ext pin' connector ->
         Pin.index pin = Pin.index pin')
  /\ (forall pin pin',
         Connector.ports_left connector = true ->
         Connector.ports_right connector = true ->
         pin_port_left ext pin connector <> pin_port_right ext pin' connector)
  /\ (forall wire wire',
         wire_port wire = wire_port wire' -> Wire.index wire = Wire.index wire').
Proof.
  split; [|split; [|split]].
  - intros pin pin' HL. rewrite !(pin_port_left_tag ext _ _ HL). intros [= H].
    apply append_inj_r, str_int_inj in H. lia.
  - intros pin pin' HR. rewrite !(pin_port_right_tag ext _ _ HR). intros [= H].
    apply append_inj_r, str_int_inj in H. lia.
  - intros pin pin' HL HR.
    rewrite (pin_port_left_tag ext _ _ HL), (pin_port_right_tag ext _ _ HR).
    intros [= H]. apply (f_equal last_char) in H.
    rewrite !last_char_app in H by discriminate. discriminate H.
  - intros wire wire'. rewrite !wire_port_tag. intros [= H].
    apply str_int_inj in H. lia.
Qed.

(** ** The table of additional components *)

(** X20: for a component without additional components
    [gv_additional_component_table] returns [None], and [nested_table]
    returns what it returns without that logical row; otherwise the
    function returns a table with one row of four cells per sub-item, in
    order, the third cell showing the unit or, without a unit, [x], and
    [nested_table], given the table among logical rows that are well
    typed, puts that very table in the cell of a row, with no table in
    between. *)
Theorem gv_additional_component_table_rows (component : Component) :
  (Comp.additional_components component = [] ->
   gv_additional_component_table component = None_
   /\ forall pre post,
        nested_table (pre ++ gv_additional_component_table component :: post)
        = nested_table (pre ++ post))
  /\ (Comp.additional_components component <> [] ->
      exists table,
        gv_additional_component_table component = Elem table
        /\ (forall pre post,
               forallb well_typed_line (pre ++ post) = true ->
               nested_table (pre ++ gv_additional_component_table component :: post)
               = Ok (outer_table
                       (Items (map row_around (row_contents pre)
                               ++ Elem (Tr (Elem (Td (Elem table) [])))
                               :: map row_around (row_contents post)))))
        /\ List.length (row_cells table)
           = List.length (Comp.additional_components component)
        /\ forall i subitem,
             nth_error (Comp.additional_components component) i = Some subitem ->
             exists row,
               nth_error (row_cells table) i = Some (Elem row)
               /\ List.length (row_cells row) = 4%nat
               /\ nth_error (row_cells row) 2
                  = Some (Elem (Td (Text (if truthy (AdditionalComponent.unit subitem)
                                          then str_atom (AdditionalComponent.unit subitem)
                                          else "x")) []))).
Proof.
  unfold gv_additional_component_table. split.
  - intros ->. split; [reflexivity|]. intros pre post. cbn [List.length Nat.eqb].
    apply nested_table_without_row. reflexivity.
  - intros Hne.
    destruct (Comp.additional_components component) as [|s0 subitems] eqn:E;
      [contradiction|].
    cbn [List.length Nat.eqb]. eexists. split; [reflexivity|].
    split.
    { intros pre post Hothers.
      apply (nested_table_with_row pre post); [exact Hothers| |];
        apply row_content_of_plain_table; reflexivity. }
    cbn [row_cells contents Table].
    rewrite (fold_left_append
               (fun subitem =>
                  Elem (Tr (Items
                    [ Elem (Td (bom_bubble (AdditionalComponent.bom_id subitem)) []);
                      Elem (Td (Text (str_atom (AdditionalComponent.bom_qty subitem))) []);
                      Elem (Td (Text (if truthy (AdditionalComponent.unit subitem)
                                      then str_atom (AdditionalComponent.unit subitem)
                                      else "x")) []);
                      Elem (Td (Text (str_atom (AdditionalComponent.description subitem)))
                               []) ])))).
    cbn [app]. split; [apply length_map|].
    intros i subitem Hi. eexists. split.
    + erewrite map_nth_error by exact Hi. cbv beta. reflexivity.
    + split; reflexivity.
Qed.

Lemma gv_additional_component_table_rows_witness :
  exists table row,
    gv_additional_component_table sample_component_with_subitems = Elem table
    /\ nested_table [Text "X"; gv_additional_component_table sample_component_with_subitems]
       = Ok (outer_table
               (Items [ row_around (bordered_subtable [Td (Text "X") []]);
                        Elem (Tr (Elem (Td (Elem table) []))) ]))
    /\ List.length (row_cells table) = 2%nat
    /\ nth_error (row_cells table) 1 = Some (Elem row)
    /\ nth_error (row_cells row) 2 = Some (Elem (Td (Text "x") [])).
Proof.
  destruct (proj2 (gv_additional_component_table_rows sample_component_with_subitems))
    as [table [H1 [H2 [H3 H4]]]]; [discriminate|].
  destruct (H4 1%nat
              {| AdditionalComponent.bom_id := ANone; AdditionalComponent.bom_qty := AInt 1;
                 AdditionalComponent.unit := ANone;
                 AdditionalComponent.description := AStr "Crimp" |} eq_refl)
    as [row [H5 [_ H7]]].
  exists table, row.
  split; [exact H1|]. split; [exact (H2 [Text "X"] [] eq_refl)|].
  split; [exact H3|]. split; [exact H5 | exact H7].
Defined.
